(** * Libro backend: the recommendation and suggestion handlers of
    [apps/backend/src/main.ts]

    The development embeds the two request handlers of the Express server
    ([GET /api/book-suggestions] and [POST /api/recommend-books]) together
    with the helper [parseTextRecommendations], and states the properties of
    the specification over that embedding.

    Strings are JavaScript strings: finite sequences of UTF-16 code units.
    Calls to the completion service are recorded in a trace, so that "the
    service is not invoked" is a statement about that trace. *)

From Stdlib Require Import List Arith NArith Bool String Ascii Lia.
Import ListNotations.

Local Open Scope N_scope.
Local Open Scope list_scope.

(* ================================================================== *)
(** * JavaScript strings *)
(* ================================================================== *)

Module JS.

(** A string is the list of its UTF-16 code units. *)
Definition jsstring := list N.

(** A literal of the source, written as a Rocq string. *)
Definition lit (s : string) : jsstring :=
  map N_of_ascii (list_ascii_of_string s).

Definition LF : N := 10.

(** ** Character classes *)

(** [\d] of a regular expression. *)
Definition isDigit (c : N) : bool := (48 <=? c) && (c <=? 57).

(** [\w] of a regular expression without the [u] flag: [A-Za-z0-9_]. *)
Definition isWordChar (c : N) : bool :=
  ((97 <=? c) && (c <=? 122)) || ((65 <=? c) && (c <=? 90))
  || isDigit c || (c =? 95).

(** White space and line terminators: what [String.prototype.trim] strips
    and what [\s] matches. *)
Definition isWhiteSpace (c : N) : bool :=
  (c =? 9) || (c =? 10) || (c =? 11) || (c =? 12) || (c =? 13)
  || (c =? 32) || (c =? 0xA0) || (c =? 0x1680)
  || ((0x2000 <=? c) && (c <=? 0x200A))
  || (c =? 0x2028) || (c =? 0x2029) || (c =? 0x202F) || (c =? 0x205F)
  || (c =? 0x3000) || (c =? 0xFEFF).

(** ** List-level helpers *)

Fixpoint dropWhile (p : N -> bool) (s : jsstring) : jsstring :=
  match s with
  | [] => []
  | c :: r => if p c then dropWhile p r else s
  end.

Fixpoint takeWhile (p : N -> bool) (s : jsstring) : jsstring :=
  match s with
  | [] => []
  | c :: r => if p c then c :: takeWhile p r else []
  end.

(** The rest of [s] after its first unit, when that unit is [c]. *)
Definition expect (c : N) (s : jsstring) : option jsstring :=
  match s with
  | x :: r => if x =? c then Some r else None
  | [] => None
  end.

(** ** [String.prototype.trim] *)

Definition trimStart (s : jsstring) : jsstring := dropWhile isWhiteSpace s.
Definition trimEnd (s : jsstring) : jsstring := rev (dropWhile isWhiteSpace (rev s)).
Definition trim (s : jsstring) : jsstring := trimEnd (trimStart s).

(** ** [String.prototype.split] with a one-unit separator.  The result is
    never empty: [''.split('\n')] is [['']]. *)
Fixpoint split (sep : N) (s : jsstring) : list jsstring :=
  match s with
  | [] => [[]]
  | c :: r =>
      if c =? sep then [] :: split sep r
      else match split sep r with
           | l :: ls => (c :: l) :: ls
           | [] => [[c]]
           end
  end.

(** ** [String.prototype.toLowerCase]

    ASCII letters are mapped exactly, and so are the only two code points
    whose lower-case form contains an ASCII letter: U+0130 (to [i] followed
    by U+0307) and the Kelvin sign U+212A (to [k]).  Every other code unit is
    left in place: its lower-case form is again outside ASCII, and the
    source inspects the lowered line only for ASCII tokens. *)
Definition lowerUnit (c : N) : jsstring :=
  if (65 <=? c) && (c <=? 90) then [c + 32]
  else if c =? 0x130 then [0x69; 0x307]
  else if c =? 0x212A then [0x6B]
  else [c].

Definition toLowerCase (s : jsstring) : jsstring := flat_map lowerUnit s.

(** ** [String.prototype.includes] *)

Fixpoint startsWith (s p : jsstring) : bool :=
  match p, s with
  | [], _ => true
  | _ :: _, [] => false
  | a :: p', c :: s' => (a =? c) && startsWith s' p'
  end.

Fixpoint includes (s t : jsstring) : bool :=
  startsWith s t ||
  match s with
  | [] => false
  | _ :: r => includes r t
  end.

(** ** Regular expressions of the source *)

(** Canonicalisation of the [i] flag (without [u]): a code unit outside
    ASCII never canonicalises to an ASCII one, so against the ASCII patterns
    of the source only the ASCII letters fold. *)
Definition canonicalize (c : N) : N :=
  if (97 <=? c) && (c <=? 122) then c - 32 else c.

(** The pattern [p] matched at the head of [s], ignoring case; the rest of
    [s] after the match. *)
Fixpoint matchIgnoreCase (p s : jsstring) : option jsstring :=
  match p, s with
  | [], _ => Some s
  | _ :: _, [] => None
  | a :: p', c :: s' =>
      if canonicalize a =? canonicalize c then matchIgnoreCase p' s' else None
  end.

(** One alternative [label\s*]: the label, then the longest run of white
    space. *)
Definition matchLabel (label s : jsstring) : option jsstring :=
  match matchIgnoreCase label s with
  | Some rest => Some (dropWhile isWhiteSpace rest)
  | None => None
  end.

(** The alternation [l1\s*|l2\s*|...] at the head of [s]: the first
    alternative that matches wins. *)
Fixpoint matchLabels (labels : list jsstring) (s : jsstring) : option jsstring :=
  match labels with
  | [] => None
  | l :: ls =>
      match matchLabel l s with
      | Some rest => Some rest
      | None => matchLabels ls s
      end
  end.

(** [s.replace(/l1\s*|l2\s*/i, '')]: there is no [g] flag, the leftmost
    match alone is removed. *)
Fixpoint replaceLabels (labels : list jsstring) (s : jsstring) : jsstring :=
  match s with
  | [] => []
  | c :: r =>
      match matchLabels labels s with
      | Some rest => rest
      | None => c :: replaceLabels labels r
      end
  end.

(** [/^\d+\./] at the head of [s]: the rest after the marker. *)
Definition matchNumberMarker (s : jsstring) : option jsstring :=
  match takeWhile isDigit s with
  | _ :: _ => expect 46 (dropWhile isDigit s)
  | [] => None
  end.

(** [\btitle:\s*] searched from a position whose preceding unit is a word
    character iff [prevWord]; [\b] holds where exactly one side is a word
    character. *)
Fixpoint replaceTitleLabel (prevWord : bool) (s : jsstring) : jsstring :=
  match s with
  | [] => []
  | c :: r =>
      match (if xorb prevWord (isWordChar c)
             then matchLabel (lit "title:") s else None) with
      | Some rest => rest
      | None => c :: replaceTitleLabel (isWordChar c) r
      end
  end.

(** [line.replace(/^\d+\.|\btitle:\s*/i, '')].  At position 0 the marker
    alternative is tried first; [^] fails at every later position. *)
Definition replaceTitle (line : jsstring) : jsstring :=
  match matchNumberMarker line with
  | Some rest => rest
  | None => replaceTitleLabel false line
  end.

End JS.
Import JS.

(* ================================================================== *)
(** * The heuristic line parser *)
(* ================================================================== *)

(** [Partial<BookRecommendation>]: a field that was never assigned is
    absent. *)
Record PartialBook : Type := mkBook {
  title : option jsstring;
  author : option jsstring;
  reason : option jsstring;
  genre : option jsstring
}.

Definition emptyBook : PartialBook := mkBook None None None None.

(** Truthiness of a string-valued property: defined and not [''] . *)
Definition truthy (v : option jsstring) : bool :=
  match v with
  | Some (_ :: _) => true
  | _ => false
  end.

Definition nonBlank (line : jsstring) : bool :=
  match trim line with
  | [] => false
  | _ :: _ => true
  end.

(** The state of the loop: the records pushed so far and [currentBook]. *)
Definition ParserState : Type := (list PartialBook * PartialBook)%type.

Definition startsRecord (lowerLine : jsstring) : bool :=
  includes lowerLine (lit "title:") ||
  match matchNumberMarker lowerLine with Some _ => true | None => false end.

(** One iteration of the [for] loop. *)
Definition parseLine (st : ParserState) (line : jsstring) : ParserState :=
  let '(recommendations, currentBook) := st in
  let lowerLine := toLowerCase line in
  if startsRecord lowerLine then
    let '(recommendations, currentBook) :=
      if truthy (title currentBook)
      then (recommendations ++ [currentBook], emptyBook)
      else (recommendations, currentBook) in
    (recommendations,
     mkBook (Some (trim (replaceTitle line)))
            (author currentBook) (reason currentBook) (genre currentBook))
  else if includes lowerLine (lit "author:") then
    (recommendations,
     mkBook (title currentBook)
            (Some (trim (replaceLabels [lit "author:"] line)))
            (reason currentBook) (genre currentBook))
  else if includes lowerLine (lit "reason:") || includes lowerLine (lit "why:") then
    (recommendations,
     mkBook (title currentBook) (author currentBook)
            (Some (trim (replaceLabels [lit "reason:"; lit "why:"] line)))
            (genre currentBook))
  else if includes lowerLine (lit "genre:") then
    (recommendations,
     mkBook (title currentBook) (author currentBook) (reason currentBook)
            (Some (trim (replaceLabels [lit "genre:"] line))))
  else st.

Definition textLines (text : jsstring) : list jsstring :=
  filter nonBlank (split LF text).

(** After the loop: the record under construction is pushed when it has a
    title. *)
Definition finish (st : ParserState) : list PartialBook :=
  let '(recommendations, currentBook) := st in
  if truthy (title currentBook)
  then recommendations ++ [currentBook]
  else recommendations.

Definition parseTextRecommendations (text : jsstring) : list PartialBook :=
  finish (fold_left parseLine (textLines text) ([], emptyBook)).

(* ================================================================== *)
(** * JSON values and [JSON.parse] *)
(* ================================================================== *)

Module Json.

(** A decoded JSON value.  A number keeps the text of its literal: the
    conversion to a double is not modelled, and nothing below looks at the
    value of a number.  An object keeps its members in creation order. *)
#[local] Unset Elimination Schemes.
Inductive json : Type :=
| JNull
| JBool (b : bool)
| JNumber (literal : jsstring)
| JString (s : jsstring)
| JArray (items : list json)
| JObject (members : list (jsstring * json)).
#[local] Set Elimination Schemes.

Fixpoint sameString (a b : jsstring) : bool :=
  match a, b with
  | [], [] => true
  | x :: a', y :: b' => (x =? y) && sameString a' b'
  | _, _ => false
  end.

(** Own-property lookup and [CreateDataProperty] on the member list. *)
Fixpoint getMember (o : list (jsstring * json)) (k : jsstring) : option json :=
  match o with
  | [] => None
  | (k', v) :: r => if sameString k' k then Some v else getMember r k
  end.

Fixpoint setMember (o : list (jsstring * json)) (k : jsstring) (v : json)
  : list (jsstring * json) :=
  match o with
  | [] => [(k, v)]
  | (k', v') :: r =>
      if sameString k' k then (k', v) :: r else (k', v') :: setMember r k v
  end.

(** The object built from the members of an object literal, left to right:
    a repeated key keeps its place and takes the later value. *)
Definition buildObject (ms : list (jsstring * json)) : list (jsstring * json) :=
  fold_left (fun o kv => setMember o (fst kv) (snd kv)) ms [].

(** Outcome of a parsing function on a text. *)
Inductive Parsed (A : Type) : Type :=
| Ok (a : A) (rest : jsstring)
| SyntaxError
| OutOfFuel.
Arguments Ok {A} a rest.
Arguments SyntaxError {A}.
Arguments OutOfFuel {A}.

(** JSON white space: tab, line feed, carriage return, space. *)
Definition isJsonSpace (c : N) : bool :=
  (c =? 9) || (c =? 10) || (c =? 13) || (c =? 32).

Definition skipSpace (s : jsstring) : jsstring := dropWhile isJsonSpace s.

Definition hexDigit (c : N) : option N :=
  if isDigit c then Some (c - 48)
  else if (97 <=? c) && (c <=? 102) then Some (c - 87)
  else if (65 <=? c) && (c <=? 70) then Some (c - 55)
  else None.

Definition hex4 (a b c d : N) : option N :=
  match hexDigit a, hexDigit b, hexDigit c, hexDigit d with
  | Some x, Some y, Some z, Some w => Some (((x * 16 + y) * 16 + z) * 16 + w)
  | _, _, _, _ => None
  end.

(** The single-character escapes: quote, backslash, slash, b f n r t. *)
Definition escapeUnit (c : N) : option N :=
  if c =? 34 then Some 34
  else if c =? 92 then Some 92
  else if c =? 47 then Some 47
  else if c =? 98 then Some 8
  else if c =? 102 then Some 12
  else if c =? 110 then Some 10
  else if c =? 114 then Some 13
  else if c =? 116 then Some 9
  else None.

(** The characters of a string literal after its opening quote, up to and
    including the closing quote. *)
Fixpoint parseChars (s : jsstring) : option (jsstring * jsstring) :=
  match s with
  | [] => None
  | c :: r =>
      if c =? 34 then Some ([], r)
      else if c =? 92 then
        match r with
        | [] => None
        | e :: r1 =>
            if e =? 117 then
              match r1 with
              | h1 :: h2 :: h3 :: h4 :: r2 =>
                  match hex4 h1 h2 h3 h4, parseChars r2 with
                  | Some u, Some (str, rest) => Some (u :: str, rest)
                  | _, _ => None
                  end
              | _ => None
              end
            else
              match escapeUnit e, parseChars r1 with
              | Some u, Some (str, rest) => Some (u :: str, rest)
              | _, _ => None
              end
        end
      else if c <? 32 then None
      else
        match parseChars r with
        | Some (str, rest) => Some (c :: str, rest)
        | None => None
        end
  end.

(** A run of at least one digit. *)
Definition digits1 (s : jsstring) : option (jsstring * jsstring) :=
  match takeWhile isDigit s with
  | [] => None
  | ds => Some (ds, dropWhile isDigit s)
  end.

(** A number literal: an optional minus sign; a single 0, or a non-zero
    digit followed by digits; an optional fraction (a period and at least
    one digit); an optional exponent (e or E, an optional sign, at least one
    digit).  The result is the literal and the rest of the text. *)
Definition parseNumber (s : jsstring) : option (jsstring * jsstring) :=
  let '(sign, s1) :=
    match expect 45 s with
    | Some r => ([45], r)
    | None => ([], s)
    end in
  match
    match s1 with
    | [] => None
    | c :: r =>
        if c =? 48 then Some ([c], r)
        else if isDigit c then Some (c :: takeWhile isDigit r, dropWhile isDigit r)
        else None
    end
  with
  | None => None
  | Some (int, s2) =>
      match
        match expect 46 s2 with
        | Some r =>
            match digits1 r with
            | Some (ds, r') => Some (46 :: ds, r')
            | None => None
            end
        | None => Some ([], s2)
        end
      with
      | None => None
      | Some (frac, s3) =>
          match s3 with
          | e :: r =>
              if (e =? 101) || (e =? 69) then
                let '(esign, r1) :=
                  match r with
                  | g :: r' => if (g =? 43) || (g =? 45) then ([g], r') else ([], r)
                  | [] => ([], r)
                  end in
                match digits1 r1 with
                | Some (ds, rest) => Some (sign ++ int ++ frac ++ e :: esign ++ ds, rest)
                | None => None
                end
              else Some (sign ++ int ++ frac, s3)
          | [] => Some (sign ++ int ++ frac, s3)
          end
      end
  end.

(** Values, the elements of an array after its opening bracket and the
    members of an object after its opening brace.  Each nested call is
    given one unit of fuel less. *)
Fixpoint parseValue (fuel : nat) (s : jsstring) : Parsed json :=
  match fuel with
  | O => OutOfFuel
  | S fuel' =>
      match skipSpace s with
      | [] => SyntaxError
      | c :: r =>
          if c =? 123 then
            match expect 125 (skipSpace r) with
            | Some rest => Ok (JObject []) rest
            | None =>
                match parseMembers fuel' r with
                | Ok ms rest => Ok (JObject (buildObject ms)) rest
                | SyntaxError => SyntaxError
                | OutOfFuel => OutOfFuel
                end
            end
          else if c =? 91 then
            match expect 93 (skipSpace r) with
            | Some rest => Ok (JArray []) rest
            | None =>
                match parseElements fuel' r with
                | Ok vs rest => Ok (JArray vs) rest
                | SyntaxError => SyntaxError
                | OutOfFuel => OutOfFuel
                end
            end
          else if c =? 34 then
            match parseChars r with
            | Some (str, rest) => Ok (JString str) rest
            | None => SyntaxError
            end
          else if startsWith (c :: r) (lit "true") then Ok (JBool true) (skipn 4 (c :: r))
          else if startsWith (c :: r) (lit "false") then Ok (JBool false) (skipn 5 (c :: r))
          else if startsWith (c :: r) (lit "null") then Ok JNull (skipn 4 (c :: r))
          else
            match parseNumber (c :: r) with
            | Some (literal, rest) => Ok (JNumber literal) rest
            | None => SyntaxError
            end
      end
  end

with parseElements (fuel : nat) (s : jsstring) : Parsed (list json) :=
  match fuel with
  | O => OutOfFuel
  | S fuel' =>
      match parseValue fuel' s with
      | Ok v r =>
          match expect 44 (skipSpace r) with
          | Some r' =>
              match parseElements fuel' r' with
              | Ok vs rest => Ok (v :: vs) rest
              | SyntaxError => SyntaxError
              | OutOfFuel => OutOfFuel
              end
          | None =>
              match expect 93 (skipSpace r) with
              | Some rest => Ok [v] rest
              | None => SyntaxError
              end
          end
      | SyntaxError => SyntaxError
      | OutOfFuel => OutOfFuel
      end
  end

with parseMembers (fuel : nat) (s : jsstring) : Parsed (list (jsstring * json)) :=
  match fuel with
  | O => OutOfFuel
  | S fuel' =>
      match expect 34 (skipSpace s) with
      | None => SyntaxError
      | Some r =>
          match parseChars r with
          | None => SyntaxError
          | Some (k, r1) =>
              match expect 58 (skipSpace r1) with
              | None => SyntaxError
              | Some r2 =>
                  match parseValue fuel' r2 with
                  | Ok v r3 =>
                      match expect 44 (skipSpace r3) with
                      | Some r4 =>
                          match parseMembers fuel' r4 with
                          | Ok ms rest => Ok ((k, v) :: ms) rest
                          | SyntaxError => SyntaxError
                          | OutOfFuel => OutOfFuel
                          end
                      | None =>
                          match expect 125 (skipSpace r3) with
                          | Some rest => Ok [(k, v)] rest
                          | None => SyntaxError
                          end
                      end
                  | SyntaxError => SyntaxError
                  | OutOfFuel => OutOfFuel
                  end
              end
          end
      end
  end.

(** Fuel that is always enough for a text (see [parseText_fuel]). *)
Definition fuelFor (text : jsstring) : nat := 2 * List.length text + 2.

Definition parseText (text : jsstring) : Parsed json :=
  parseValue (fuelFor text) text.

(** [JSON.parse(text)]: [None] stands for the [SyntaxError] it throws. *)
Definition JSON_parse (text : jsstring) : option json :=
  match parseText text with
  | Ok v rest =>
      match skipSpace rest with
      | [] => Some v
      | _ :: _ => None
      end
  | _ => None
  end.

End Json.
Import Json.

(* ================================================================== *)
(** * The completion service and the handler monad *)
(* ================================================================== *)

(** A request to [openai.chat.completions.create].  The prompt text is
    determined by the query, respectively by the list of books; the request
    is identified by them. *)
Inductive ChatRequest : Type :=
| SuggestTitles (query : jsstring)
| RecommendFor (books : list json).

(** What the awaited call gives: the [content] of the first choice, which
    may be missing, or a failure (a rejected promise, or no first choice). *)
Inductive Outcome : Type :=
| Completion (content : option jsstring)
| Rejected.

Definition Service : Type := ChatRequest -> Outcome.

(** A computation of a handler: it reads the service, appends to the trace
    of the calls made, and either returns a value or throws ([None]). *)
Definition Handler (A : Type) : Type :=
  Service -> list ChatRequest -> (option A * list ChatRequest).

Definition ret {A} (a : A) : Handler A := fun _ trace => (Some a, trace).

Definition throw {A} : Handler A := fun _ trace => (None, trace).

Definition bind {A B} (h : Handler A) (k : A -> Handler B) : Handler B :=
  fun svc trace =>
    match h svc trace with
    | (Some a, trace') => k a svc trace'
    | (None, trace') => (None, trace')
    end.

Notation "x <- h ;; k" := (bind h (fun x => k))
  (at level 61, h at next level, right associativity).

(** [await openai.chat.completions.create(...)] followed by
    [.choices[0].message.content]. *)
Definition create (req : ChatRequest) : Handler (option jsstring) :=
  fun svc trace =>
    match svc req with
    | Completion content => (Some content, trace ++ [req])
    | Rejected => (None, trace ++ [req])
    end.

(** The [try { ... } catch { ... }] around the body of a route: the response
    sent, and the calls made to the service. *)
Definition tryCatch {A} (h : Handler A) (handler : A) (svc : Service)
  : A * list ChatRequest :=
  match h svc [] with
  | (Some a, trace) => (a, trace)
  | (None, trace) => (handler, trace)
  end.

(* ================================================================== *)
(** * The routes *)
(* ================================================================== *)

(** An element of [recommendations]: a value taken as it is from the decoded
    JSON, or a record built by the line parser. *)
Inductive Recommendation : Type :=
| Decoded (value : json)
| Extracted (book : PartialBook).

Inductive ResponseBody : Type :=
| Suggestions (titles : list jsstring)
| RecommendationResponse (inputBooks : list json)
                         (recommendations : list Recommendation)
| ErrorMessage (error : string).

Record HttpResponse : Type := mkResponse {
  status : N;
  body : ResponseBody
}.

(** [v.k] for [k] one of [books], [recommendations]: [None] is the
    [TypeError] of reading a property of [null]; [Some None] is
    [undefined].  Neither name is defined on a built-in prototype, so only
    an object's own members answer. *)
Definition property (v : json) (k : jsstring) : option (option json) :=
  match v with
  | JNull => None
  | JObject members => Some (getMember members k)
  | _ => Some None
  end.

(** [v || ''] for a string [v] that may be missing. *)
Definition orEmpty (v : option jsstring) : jsstring :=
  match v with
  | Some (c :: r) => c :: r
  | _ => []
  end.

(** ** [GET /api/book-suggestions] *)

(** The lines kept by [.filter(book => book.trim().length > 0)]. *)
Definition keepsLine (book : jsstring) : bool :=
  (0 <? List.length (trim book))%nat.

Definition suggestionsOf (content : option jsstring) : list jsstring :=
  match content with
  | Some text => firstn 8 (filter keepsLine (split LF text))
  | None => []
  end.

(** The query parameter [q] is a string when it is present (the source
    casts it to [string]). *)
Definition bookSuggestions (svc : Service) (q : option jsstring)
  : HttpResponse * list ChatRequest :=
  tryCatch
    (let query := orEmpty q in
     if (List.length query <? 2)%nat then ret (mkResponse 200 (Suggestions []))
     else
       content <- create (SuggestTitles query) ;;
       ret (mkResponse 200 (Suggestions (suggestionsOf content))))
    (mkResponse 500 (ErrorMessage "Failed to fetch book suggestions"))
    svc.

(** ** [POST /api/recommend-books] *)

(** The inner [try]: [None] when [JSON.parse] throws, when reading
    [parsed.recommendations] throws, or when the shape is not recognised. *)
Definition decodeRecommendations (text : jsstring) : option (list json) :=
  match JSON_parse text with
  | None => None
  | Some parsed =>
      match property parsed (lit "recommendations") with
      | None => None
      | Some (Some (JArray items)) => Some items
      | Some _ =>
          match parsed with
          | JArray items => Some items
          | _ => None
          end
      end
  end.

(** The inner [try] with its [catch]. *)
Definition parseRecommendations (text : jsstring) : list Recommendation :=
  match decodeRecommendations text with
  | Some items => map Decoded items
  | None => map Extracted (parseTextRecommendations text)
  end.

(** The three error responses of the route. *)
Definition tooFew : HttpResponse :=
  mkResponse 400 (ErrorMessage
    "Please provide at least one book in the books array").

Definition tooMany : HttpResponse :=
  mkResponse 400 (ErrorMessage
    "Please provide no more than 10 books for better recommendations").

Definition failed : HttpResponse :=
  mkResponse 500 (ErrorMessage
    "Failed to get book recommendations. Please try again.").

(** [const { books } = req.body]. *)
Definition destructureBooks (reqBody : json) : Handler (option json) :=
  match property reqBody (lit "books") with
  | Some books => ret books
  | None => throw
  end.

(** Whether the conversion to a string that [Array.prototype.join] applies
    to an entry succeeds ([null] gives the empty string).  A string, a
    number and a boolean always convert.  An array converts through its own
    [join], so it converts when its elements do.  An object converts
    through [Object.prototype.toString] unless it has a member [toString] of
    its own: such a member is a JSON value, hence not callable, and
    [valueOf] then gives back the object (or is a member that is not
    callable either), so the conversion throws a [TypeError]. *)
Fixpoint stringifiable (v : json) : bool :=
  match v with
  | JArray items => forallb stringifiable items
  | JObject members =>
      match getMember members (lit "toString") with
      | Some _ => false
      | None => true
      end
  | _ => true
  end.

(** [const bookList = books.join(', ')]: it throws when an entry does not
    convert.  The text of the list goes into the prompt, which the request
    stands for. *)
Definition joinBooks (books : list json) : Handler unit :=
  if forallb stringifiable books then ret tt else throw.

(** The first guard, [!books || !Array.isArray(books) || books.length === 0],
    fails exactly on a non-empty array: no falsy value is an array. *)
Definition recommendBooks (svc : Service) (reqBody : json)
  : HttpResponse * list ChatRequest :=
  tryCatch
    (books <- destructureBooks reqBody ;;
     match books with
     | Some (JArray (b :: bs)) =>
         let books := b :: bs in
         if (10 <? List.length books)%nat then ret tooMany
         else
           bookList <- joinBooks books ;;
           content <- create (RecommendFor books) ;;
           let recommendationsText := orEmpty content in
           let recommendations := parseRecommendations recommendationsText in
           ret (mkResponse 200
                  (RecommendationResponse books (firstn 5 recommendations)))
     | _ => ret tooFew
     end)
    failed
    svc.

(** Test texts are written with ['] where the text has a double quote. *)
Definition quoted (s : string) : jsstring :=
  map (fun c => if c =? 39 then 34 else c) (lit s).

Definition sixLines : jsstring :=
  lit "1. Dune" ++ [LF] ++ lit "Author: Frank Herbert" ++ [LF] ++
  lit "Reason: Epic scope" ++ [LF] ++ lit "Genre: Sci-fi" ++ [LF] ++
  lit "2. Foundation" ++ [LF] ++ lit "Author: Isaac Asimov".


(** A text whose decoding gives seven entries under [recommendations]. *)
Definition sevenEntries : jsstring :=
  quoted "{'recommendations':[{'title':'A'},{'title':'B'},{'title':'C'},{'title':'D'},{'title':'E'},{'title':'F'},{'title':'G'}]}".

Definition sevenItems : list json :=
  map (fun t => JObject [(lit "title", JString (lit t))])
      ["A"; "B"; "C"; "D"; "E"; "F"; "G"]%string.

(** A text that decodes to a string, not to an object or a sequence. *)
Definition quotedTitle : jsstring := quoted "'Title: Dune'".

(** A request body whose only book is an object with a member [toString]:
    it has no conversion to a string. *)
Definition unprintableBook : json :=
  JObject [(lit "books",
            JArray [JObject [(lit "toString", JNumber (lit "1"))]])].

(** A request body with one book. *)
Definition oneBook : json :=
  JObject [(lit "books", JArray [JString (lit "Dune")])].

(* ================================================================== *)
(** * Predicates of the specification *)
(* ================================================================== *)

(** A record with a non-empty title. *)
Definition titled (b : PartialBook) : Prop :=
  exists t, title b = Some t /\ t <> [].

(** The shapes of a decoded value that the handler recognises: an object
    whose [recommendations] is a sequence, or a sequence. *)
Definition recognisedShape (parsed : json) : bool :=
  match parsed with
  | JArray _ => true
  | JObject members =>
      match getMember members (lit "recommendations") with
      | Some (JArray _) => true
      | _ => false
      end
  | _ => false
  end.

(** The [books] input is missing, not a list, empty, or longer than 10. *)
Definition booksRejected (books : option json) : Prop :=
  books = None \/
  (exists v, books = Some v /\ forall l, v <> JArray l) \/
  books = Some (JArray []) \/
  (exists l, books = Some (JArray l) /\ (10 < List.length l)%nat).

(* ================================================================== *)
(** * Notions used to state further properties *)
(* ================================================================== *)

(** The pieces of a text put together again, the separator between them. *)
Fixpoint joinWith (sep : N) (pieces : list jsstring) : jsstring :=
  match pieces with
  | [] => []
  | p :: ps =>
      match ps with
      | [] => p
      | _ :: _ => p ++ sep :: joinWith sep ps
      end
  end.

(** The title that a record-start line gives, and the test for such a
    line, as [parseLine] computes them. *)
Definition extractTitle (line : jsstring) : jsstring :=
  trim (replaceTitle line).

Definition beginsRecord (line : jsstring) : bool :=
  startsRecord (toLowerCase line).

Definition nonEmpty (s : jsstring) : bool :=
  match s with
  | [] => false
  | _ :: _ => true
  end.

(** A string without white space at either end. *)
Definition noEdgeSpace (s : jsstring) : Prop :=
  (forall c r, s = c :: r -> isWhiteSpace c = false) /\
  (forall c r, s = r ++ [c] -> isWhiteSpace c = false).

(** Every field that a record has is free of white space at its ends. *)
Definition fieldsTrimmed (b : PartialBook) : Prop :=
  forall v,
    title b = Some v \/ author b = Some v \/ reason b = Some v \/
    genre b = Some v ->
    noEdgeSpace v.

(** The title a record would be pushed with, if it has one. *)
Definition pendingTitle (b : PartialBook) : list (option jsstring) :=
  if truthy (title b) then [title b] else [].

(** The non-empty titles given by the record-start lines, in order. *)
Definition startTitles (lines : list jsstring) : list jsstring :=
  filter nonEmpty (map extractTitle (filter beginsRecord lines)).

(** Two strings that differ at most in the case of their ASCII letters, as
    the [i] flag compares them. *)
Definition sameIgnoringCase (a b : jsstring) : Prop :=
  map canonicalize a = map canonicalize b.

(** The code units of the labels of the source: lower-case ASCII letters
    and the colon. *)
Definition isLabelUnit (a : N) : bool :=
  ((97 <=? a) && (a <=? 122)) || (a =? 58).

(** Two results of a replacement that differ at most by one final code
    unit [c]. *)
Definition upToFinal (c : N) (y' y : jsstring) : Prop :=
  y' = y \/ y' = y ++ [c].

(** The same, for the outcome of a match. *)
Definition matchUpToFinal (c : N) (m' m : option jsstring) : Prop :=
  match m', m with
  | None, None => True
  | Some y', Some y => upToFinal c y' y
  | _, _ => False
  end.

(** Labels as the source has them: not empty, made of label units. *)
Definition properLabels (labels : list jsstring) : Prop :=
  Forall (fun l => l <> [] /\ forallb isLabelUnit l = true) labels.

(** The entries of [books], when it is a list, are strings, as the
    interface [RecommendationRequest] declares them.  The prompt is built
    from them with [books.join], which cannot fail on strings. *)
Definition isJString (v : json) : bool :=
  match v with
  | JString _ => true
  | _ => false
  end.

Definition stringEntries (reqBody : json) : Prop :=
  forall l,
    property reqBody (lit "books") = Some (Some (JArray l)) ->
    forallb isJString l = true.

(** The code units that can begin a JSON value. *)
Definition startsJsonValue (c : N) : bool :=
  (c =? 123) || (c =? 91) || (c =? 34) || (c =? 116) || (c =? 102)
  || (c =? 110) || (c =? 45) || isDigit c.

(* ================================================================== *)
(** * Facts about the string operations *)
(* ================================================================== *)

Example split_empty : split LF [] = [[]].
Proof. reflexivity. Qed.

Example split_trailing_newline :
  split LF (lit "a" ++ [LF] ++ [LF] ++ lit "b" ++ [LF]) =
  [lit "a"; []; lit "b"; []].
Proof. reflexivity. Qed.

Example trim_both_ends :
  trim ([9; 32; 0xA0] ++ lit "a b" ++ [13; 0x2028]) = lit "a b".
Proof. reflexivity. Qed.

Example toLowerCase_ascii : toLowerCase (lit "TiTle: X9") = lit "title: x9".
Proof. reflexivity. Qed.

Example includes_token :
  includes (lit "1. title: dune") (lit "title:") = true /\
  includes (lit "titl e:") (lit "title:") = false.
Proof. split; reflexivity. Qed.

Example replaceTitle_label : replaceTitle (lit "TITLE:   Dune") = lit "Dune".
Proof. reflexivity. Qed.

Example replaceTitle_marker : replaceTitle (lit "12. Dune") = lit " Dune".
Proof. reflexivity. Qed.

(** [\b] does not hold inside a word: the label is left where it is. *)
Example replaceTitle_inside_word :
  replaceTitle (lit "Subtitle: Dune") = lit "Subtitle: Dune".
Proof. reflexivity. Qed.

Example replaceLabels_first_alternative :
  replaceLabels [lit "reason:"; lit "why:"] (lit "Why: a reason: b") =
  lit "a reason: b".
Proof. reflexivity. Qed.

Example JSON_parse_object :
  JSON_parse (quoted " {'a': [1, true, null], 'b': 'x', 'a': -2.5e3} ") =
  Some (JObject [(lit "a", JNumber (lit "-2.5e3")); (lit "b", JString (lit "x"))]).
Proof. reflexivity. Qed.

Example JSON_parse_rejects :
  JSON_parse (quoted "[1,]") = None /\ JSON_parse (quoted "01") = None /\
  JSON_parse (quoted "{'a':1,}") = None /\ JSON_parse (quoted "1.") = None /\
  JSON_parse (quoted "nul") = None /\ JSON_parse (quoted "{a:1}") = None.
Proof. repeat split; reflexivity. Qed.

Lemma dropWhile_length (p : N -> bool) (s : jsstring) :
  (List.length (dropWhile p s) <= List.length s)%nat.
Proof.
  induction s as [|c r IH]; simpl; [lia|].
  destruct (p c); simpl; lia.
Qed.

Lemma expect_length (c : N) (s r : jsstring) :
  expect c s = Some r -> List.length s = S (List.length r).
Proof.
  destruct s as [|x t]; simpl; [discriminate|].
  destruct (x =? c); [|discriminate].
  intros H; injection H as ->; reflexivity.
Qed.

Lemma skipSpace_length (s : jsstring) :
  (List.length (skipSpace s) <= List.length s)%nat.
Proof. apply dropWhile_length. Qed.

(* ================================================================== *)
(** * [JSON.parse] is total: the fuel never runs out *)
(* ================================================================== *)

Lemma parseChars_length (s str rest : jsstring) :
  parseChars s = Some (str, rest) ->
  (List.length rest < List.length s)%nat.
Proof.
  remember (List.length s) as n eqn:Hn.
  revert s str rest Hn.
  induction n as [n IH] using lt_wf_ind.
  intros s str rest Hn.
  destruct s as [|c r]; simpl; [discriminate|].
  destruct (c =? 34).
  { intros H; injection H as _ <-. simpl in Hn. lia. }
  destruct (c =? 92).
  - destruct r as [|e r1]; [discriminate|].
    destruct (e =? 117).
    + destruct r1 as [|h1 [|h2 [|h3 [|h4 r2]]]]; try discriminate.
      destruct (hex4 h1 h2 h3 h4); [|discriminate].
      destruct (parseChars r2) as [[str' rest']|] eqn:E; [|discriminate].
      intros H; injection H as _ <-.
      simpl in Hn.
      pose proof (IH (List.length r2) ltac:(lia) r2 str' rest' eq_refl E). lia.
    + destruct (escapeUnit e); [|discriminate].
      destruct (parseChars r1) as [[str' rest']|] eqn:E; [|discriminate].
      intros H; injection H as _ <-.
      simpl in Hn.
      pose proof (IH (List.length r1) ltac:(lia) r1 str' rest' eq_refl E). lia.
  - destruct (c <? 32); [discriminate|].
    destruct (parseChars r) as [[str' rest']|] eqn:E; [|discriminate].
    intros H; injection H as _ <-.
    simpl in Hn.
    pose proof (IH (List.length r) ltac:(lia) r str' rest' eq_refl E). lia.
Qed.

Lemma digits1_length (s ds rest : jsstring) :
  digits1 s = Some (ds, rest) -> (List.length rest <= List.length s)%nat.
Proof.
  unfold digits1. destruct (takeWhile isDigit s); [discriminate|].
  intros H; injection H as _ <-. apply dropWhile_length.
Qed.

Lemma parseNumber_length (s literal rest : jsstring) :
  parseNumber s = Some (literal, rest) ->
  (List.length rest < List.length s)%nat.
Proof.
  unfold parseNumber.
  assert (Hsign : forall sg s1,
            match expect 45 s with Some r => ([45], r) | None => ([], s) end = (sg, s1) ->
            (List.length s1 <= List.length s)%nat).
  { intros sg s1. destruct (expect 45 s) eqn:E; intros H; injection H as _ <-.
    - apply expect_length in E. lia.
    - lia. }
  destruct (match expect 45 s with Some r => ([45], r) | None => ([], s) end)
    as [sg s1] eqn:Es.
  specialize (Hsign _ _ eq_refl).
  destruct s1 as [|c r]; [discriminate|]. simpl in Hsign.
  assert (Hint : forall int s2,
            (if c =? 48 then Some ([c], r)
             else if isDigit c
                  then Some (c :: takeWhile isDigit r, dropWhile isDigit r)
                  else None) = Some (int, s2) ->
            (List.length s2 <= List.length r)%nat).
  { intros int s2. destruct (c =? 48).
    - intros H; injection H as _ <-. lia.
    - destruct (isDigit c); [|discriminate].
      intros H; injection H as _ <-. apply dropWhile_length. }
  destruct (if c =? 48 then Some ([c], r)
            else if isDigit c
                 then Some (c :: takeWhile isDigit r, dropWhile isDigit r)
                 else None) as [[int s2]|]; [|discriminate].
  specialize (Hint _ _ eq_refl).
  assert (Hfrac : forall frac s3,
            match expect 46 s2 with
            | Some r0 =>
                match digits1 r0 with
                | Some (ds, r') => Some (46 :: ds, r')
                | None => None
                end
            | None => Some ([], s2)
            end = Some (frac, s3) ->
            (List.length s3 <= List.length s2)%nat).
  { intros frac s3. destruct (expect 46 s2) as [r0|] eqn:E.
    - destruct (digits1 r0) as [[ds r']|] eqn:D; [|discriminate].
      intros H; injection H as _ <-.
      apply expect_length in E. apply digits1_length in D. lia.
    - intros H; injection H as _ <-. lia. }
  destruct (match expect 46 s2 with
            | Some r0 =>
                match digits1 r0 with
                | Some (ds, r') => Some (46 :: ds, r')
                | None => None
                end
            | None => Some ([], s2)
            end) as [[frac s3]|]; [|discriminate].
  specialize (Hfrac _ _ eq_refl).
  destruct s3 as [|e r3].
  { intros H; injection H as _ <-. simpl in *. lia. }
  destruct ((e =? 101) || (e =? 69)).
  - assert (Hesign : forall esign r1,
              match r3 with
              | g :: r' => if (g =? 43) || (g =? 45) then ([g], r') else ([], r3)
              | [] => ([], r3)
              end = (esign, r1) ->
              (List.length r1 <= List.length r3)%nat).
    { intros esign r1. destruct r3 as [|g r'].
      - intros H; injection H as _ <-. lia.
      - destruct ((g =? 43) || (g =? 45)); intros H; injection H as _ <-; simpl; lia. }
    destruct (match r3 with
              | g :: r' => if (g =? 43) || (g =? 45) then ([g], r') else ([], r3)
              | [] => ([], r3)
              end) as [esign r1].
    specialize (Hesign _ _ eq_refl).
    destruct (digits1 r1) as [[ds rest']|] eqn:D; [|discriminate].
    intros H; injection H as _ <-.
    apply digits1_length in D. simpl in *. lia.
  - intros H; injection H as _ <-. simpl in *. lia.
Qed.

Lemma skipn_cons_length (n : nat) (c : N) (t : jsstring) :
  (List.length (skipn (S n) (c :: t)) < List.length (c :: t))%nat.
Proof. rewrite length_skipn. simpl. lia. Qed.

(** Every successful parse consumes at least one code unit. *)
Lemma parse_progress (fuel : nat) :
  (forall s v r, parseValue fuel s = Ok v r ->
                 (List.length r < List.length s)%nat) /\
  (forall s vs r, parseElements fuel s = Ok vs r ->
                  (List.length r < List.length s)%nat) /\
  (forall s ms r, parseMembers fuel s = Ok ms r ->
                  (List.length r < List.length s)%nat).
Proof.
  induction fuel as [|f [IHv [IHe IHm]]].
  { repeat split; intros; discriminate. }
  split; [|split].
  - intros s v r. cbn [parseValue].
    pose proof (skipSpace_length s) as Hs.
    destruct (skipSpace s) as [|c t]; [discriminate|]. simpl in Hs.
    pose proof (skipSpace_length t) as Ht.
    destruct (c =? 123).
    { destruct (expect 125 (skipSpace t)) eqn:E1.
      - intros X; injection X as _ <-. apply expect_length in E1. lia.
      - destruct (parseMembers f t) eqn:E2; try discriminate.
        intros X; injection X as _ <-. apply IHm in E2. lia. }
    destruct (c =? 91).
    { destruct (expect 93 (skipSpace t)) eqn:E1.
      - intros X; injection X as _ <-. apply expect_length in E1. lia.
      - destruct (parseElements f t) eqn:E2; try discriminate.
        intros X; injection X as _ <-. apply IHe in E2. lia. }
    destruct (c =? 34).
    { destruct (parseChars t) as [[str rest]|] eqn:E1; [|discriminate].
      intros X; injection X as _ <-. apply parseChars_length in E1. lia. }
    destruct (startsWith (c :: t) (lit "true")).
    { intros X; injection X as _ <-.
      pose proof (skipn_cons_length 3 c t). simpl List.length in *. lia. }
    destruct (startsWith (c :: t) (lit "false")).
    { intros X; injection X as _ <-.
      pose proof (skipn_cons_length 4 c t). simpl List.length in *. lia. }
    destruct (startsWith (c :: t) (lit "null")).
    { intros X; injection X as _ <-.
      pose proof (skipn_cons_length 3 c t). simpl List.length in *. lia. }
    destruct (parseNumber (c :: t)) as [[literal rest]|] eqn:E1; [|discriminate].
    intros X; injection X as _ <-.
    apply parseNumber_length in E1. simpl List.length in *. lia.
  - intros s vs r. cbn [parseElements].
    destruct (parseValue f s) as [v r1| |] eqn:E1; try discriminate.
    apply IHv in E1. pose proof (skipSpace_length r1) as Hr.
    destruct (expect 44 (skipSpace r1)) as [r2|] eqn:E2.
    + destruct (parseElements f r2) eqn:E3; try discriminate.
      intros X; injection X as _ <-.
      apply IHe in E3. apply expect_length in E2. lia.
    + destruct (expect 93 (skipSpace r1)) eqn:E3; [|discriminate].
      intros X; injection X as _ <-. apply expect_length in E3. lia.
  - intros s ms r. cbn [parseMembers].
    pose proof (skipSpace_length s) as Hs.
    destruct (expect 34 (skipSpace s)) as [r0|] eqn:E0; [|discriminate].
    apply expect_length in E0.
    destruct (parseChars r0) as [[k r1]|] eqn:E1; [|discriminate].
    apply parseChars_length in E1.
    pose proof (skipSpace_length r1) as Hr1.
    destruct (expect 58 (skipSpace r1)) as [r2|] eqn:E2; [|discriminate].
    apply expect_length in E2.
    destruct (parseValue f r2) as [v r3| |] eqn:E3; try discriminate.
    apply IHv in E3. pose proof (skipSpace_length r3) as Hr3.
    destruct (expect 44 (skipSpace r3)) as [r4|] eqn:E4.
    + destruct (parseMembers f r4) eqn:E5; try discriminate.
      intros X; injection X as _ <-.
      apply IHm in E5. apply expect_length in E4. lia.
    + destruct (expect 125 (skipSpace r3)) eqn:E5; [|discriminate].
      intros X; injection X as _ <-. apply expect_length in E5. lia.
Qed.

(** With two units of fuel per code unit (and a little more) no parsing
    function runs out of fuel. *)
Lemma parse_fuel (fuel : nat) :
  (forall s, (2 * List.length s + 2 <= fuel)%nat ->
             parseValue fuel s <> OutOfFuel) /\
  (forall s, (2 * List.length s + 3 <= fuel)%nat ->
             parseElements fuel s <> OutOfFuel) /\
  (forall s, (2 * List.length s + 3 <= fuel)%nat ->
             parseMembers fuel s <> OutOfFuel).
Proof.
  induction fuel as [|f [IHv [IHe IHm]]].
  { repeat split; intros; lia. }
  destruct (parse_progress f) as [Pv [Pe Pm]].
  split; [|split].
  - intros s Hf. cbn [parseValue].
    pose proof (skipSpace_length s) as Hs.
    destruct (skipSpace s) as [|c t]; [discriminate|]. simpl in Hs.
    destruct (c =? 123).
    { destruct (expect 125 (skipSpace t)); [discriminate|].
      specialize (IHm t ltac:(lia)).
      destruct (parseMembers f t); congruence. }
    destruct (c =? 91).
    { destruct (expect 93 (skipSpace t)); [discriminate|].
      specialize (IHe t ltac:(lia)).
      destruct (parseElements f t); congruence. }
    destruct (c =? 34).
    { destruct (parseChars t) as [[str rest]|]; discriminate. }
    destruct (startsWith (c :: t) (lit "true")); [discriminate|].
    destruct (startsWith (c :: t) (lit "false")); [discriminate|].
    destruct (startsWith (c :: t) (lit "null")); [discriminate|].
    destruct (parseNumber (c :: t)) as [[literal rest]|]; discriminate.
  - intros s Hf. cbn [parseElements].
    specialize (IHv s ltac:(lia)).
    destruct (parseValue f s) as [v r1| |] eqn:E1; try congruence.
    apply Pv in E1. pose proof (skipSpace_length r1) as Hr.
    destruct (expect 44 (skipSpace r1)) as [r2|] eqn:E2.
    + apply expect_length in E2.
      specialize (IHe r2 ltac:(lia)).
      destruct (parseElements f r2); congruence.
    + destruct (expect 93 (skipSpace r1)); discriminate.
  - intros s Hf. cbn [parseMembers].
    pose proof (skipSpace_length s) as Hs.
    destruct (expect 34 (skipSpace s)) as [r0|] eqn:E0; [|discriminate].
    apply expect_length in E0.
    destruct (parseChars r0) as [[k r1]|] eqn:E1; [|discriminate].
    apply parseChars_length in E1.
    pose proof (skipSpace_length r1) as Hr1.
    destruct (expect 58 (skipSpace r1)) as [r2|] eqn:E2; [|discriminate].
    apply expect_length in E2.
    specialize (IHv r2 ltac:(lia)).
    destruct (parseValue f r2) as [v r3| |] eqn:E3; try congruence.
    apply Pv in E3. pose proof (skipSpace_length r3) as Hr3.
    destruct (expect 44 (skipSpace r3)) as [r4|] eqn:E4.
    + apply expect_length in E4.
      specialize (IHm r4 ltac:(lia)).
      destruct (parseMembers f r4); congruence.
    + destruct (expect 125 (skipSpace r3)); discriminate.
Qed.

(** [JSON.parse] returns a value or throws a [SyntaxError]; the embedding
    never gives up for lack of fuel. *)
Lemma parseText_fuel (text : jsstring) : parseText text <> OutOfFuel.
Proof.
  unfold parseText, fuelFor.
  apply (proj1 (parse_fuel (2 * List.length text + 2))). lia.
Qed.


(* ================================================================== *)
(** * The line parser *)
(* ================================================================== *)

Lemma truthy_titled (b : PartialBook) :
  truthy (title b) = true -> titled b.
Proof.
  unfold truthy, titled.
  destruct (title b) as [[|c r]|]; try discriminate.
  intros _. exists (c :: r). split; [reflexivity|discriminate].
Qed.

(** One line of the loop pushes nothing, or pushes the current record, and
    the latter only when its title is truthy. *)
Lemma parseLine_pushes (recs : list PartialBook) (cur : PartialBook)
      (line : jsstring) :
  fst (parseLine (recs, cur) line) = recs \/
  (fst (parseLine (recs, cur) line) = recs ++ [cur] /\
   truthy (title cur) = true).
Proof.
  unfold parseLine.
  destruct (startsRecord (toLowerCase line)).
  - destruct (truthy (title cur)) eqn:E; simpl; auto.
  - destruct (includes (toLowerCase line) (lit "author:")); [simpl; auto|].
    destruct (includes (toLowerCase line) (lit "reason:")
              || includes (toLowerCase line) (lit "why:")); [simpl; auto|].
    destruct (includes (toLowerCase line) (lit "genre:")); simpl; auto.
Qed.

Lemma parseLine_titled (st : ParserState) (line : jsstring) :
  Forall titled (fst st) -> Forall titled (fst (parseLine st line)).
Proof.
  destruct st as [recs cur]. intros H. cbn [fst] in H.
  destruct (parseLine_pushes recs cur line) as [-> | [-> E]]; [exact H|].
  apply Forall_app. split; [exact H|].
  constructor; [apply truthy_titled, E|constructor].
Qed.

Lemma fold_parseLine_titled (lines : list jsstring) :
  forall st, Forall titled (fst st) ->
             Forall titled (fst (fold_left parseLine lines st)).
Proof.
  induction lines as [|line lines IH]; intros st H; simpl; [exact H|].
  apply IH, parseLine_titled, H.
Qed.

Lemma finish_titled (st : ParserState) :
  Forall titled (fst st) -> Forall titled (finish st).
Proof.
  destruct st as [recs cur]. intros H. cbn [fst] in H. cbn [finish].
  destruct (truthy (title cur)) eqn:E; [|exact H].
  apply Forall_app. split; [exact H|].
  constructor; [apply truthy_titled, E|constructor].
Qed.

(** C2: every record returned by [parseTextRecommendations] has a non-empty
    title; a record under construction that has no title is pushed neither
    by a line of the loop nor after the loop. *)
Theorem parsed_records_have_title :
  (forall text b,
      In b (parseTextRecommendations text) ->
      exists t, title b = Some t /\ t <> []) /\
  (forall recs cur line,
      title cur = None -> fst (parseLine (recs, cur) line) = recs) /\
  (forall recs cur, title cur = None -> finish (recs, cur) = recs).
Proof.
  split; [|split].
  - intros text b Hin.
    assert (H : Forall titled (parseTextRecommendations text)).
    { unfold parseTextRecommendations.
      apply finish_titled, fold_parseLine_titled. constructor. }
    rewrite Forall_forall in H. exact (H b Hin).
  - intros recs cur line Hnone.
    destruct (parseLine_pushes recs cur line) as [E | [_ E]]; [exact E|].
    rewrite Hnone in E. discriminate.
  - intros recs cur Hnone. simpl. rewrite Hnone. reflexivity.
Qed.

(** C5: the six-line text of the specification gives two records: Dune
    with its author, reason and genre, and Foundation with its author, whose
    reason and genre were never set and are absent. *)
Theorem six_line_text_two_records :
  parseTextRecommendations sixLines =
  [ mkBook (Some (lit "Dune")) (Some (lit "Frank Herbert"))
           (Some (lit "Epic scope")) (Some (lit "Sci-fi"));
    mkBook (Some (lit "Foundation")) (Some (lit "Isaac Asimov")) None None ].
Proof. vm_compute. reflexivity. Qed.

(** When the line starts with a numeric marker, the marker is the match
    that is removed, whatever follows it. *)
Lemma replaceTitle_after_marker (line rest : jsstring) :
  matchNumberMarker line = Some rest -> replaceTitle line = rest.
Proof. unfold replaceTitle. intros ->. reflexivity. Qed.

(** C6: on a line that carries both a numeric marker and a [title:] label
    the replacement removes the marker alone, and the label stays in the
    extracted title. *)
Theorem title_label_kept_after_marker :
  trim (replaceTitle (lit "1. Title: Dune")) = lit "Title: Dune" /\
  parseTextRecommendations (lit "1. Title: Dune") =
  [ mkBook (Some (lit "Title: Dune")) None None None ].
Proof. split; vm_compute; reflexivity. Qed.

(* ================================================================== *)
(** * [GET /api/book-suggestions] *)
(* ================================================================== *)

Lemma orEmpty_some (s : jsstring) : orEmpty (Some s) = s.
Proof. destruct s; reflexivity. Qed.

Lemma keepsLine_nonBlank (line : jsstring) : keepsLine line = nonBlank line.
Proof.
  unfold keepsLine, nonBlank. destruct (trim line); reflexivity.
Qed.

Lemma keepsLine_true (line : jsstring) :
  keepsLine line = true -> trim line <> [] /\ line <> [].
Proof.
  unfold keepsLine. intros H. split.
  - intros E. rewrite E in H. discriminate.
  - intros E. subst line. discriminate.
Qed.

Lemma In_firstn {A} (n : nat) (l : list A) (x : A) :
  In x (firstn n l) -> In x l.
Proof.
  revert l. induction n as [|n IH]; intros [|a l]; simpl; try tauto.
  intros [H | H]; [left; exact H | right; apply IH, H].
Qed.

(** The handler when the query has at least two code units. *)
Lemma bookSuggestions_long (svc : Service) (query : jsstring) :
  (2 <= List.length query)%nat ->
  bookSuggestions svc (Some query) =
  match svc (SuggestTitles query) with
  | Completion content =>
      (mkResponse 200 (Suggestions (suggestionsOf content)),
       [SuggestTitles query])
  | Rejected =>
      (mkResponse 500 (ErrorMessage "Failed to fetch book suggestions"),
       [SuggestTitles query])
  end.
Proof.
  intros Hlen. unfold bookSuggestions, tryCatch. rewrite orEmpty_some.
  destruct (Nat.ltb_spec (List.length query) 2) as [Hlt | _]; [lia|].
  unfold bind, create, ret.
  destruct (svc (SuggestTitles query)); reflexivity.
Qed.

(** C7, as the code has it: at most 8 entries, the first lines of the text
    that are not blank, in the order of the text; each entry is a line of
    the text as it stands, with a non-empty trimmed form (so it is not
    empty), and is not itself trimmed. *)
Theorem suggestions_first_nonblank_lines :
  forall (svc : Service) (query text : jsstring),
    (2 <= List.length query)%nat ->
    svc (SuggestTitles query) = Completion (Some text) ->
    exists titles,
      bookSuggestions svc (Some query) =
        (mkResponse 200 (Suggestions titles), [SuggestTitles query]) /\
      titles = firstn 8 (filter nonBlank (split LF text)) /\
      (List.length titles <= 8)%nat /\
      Forall (fun entry =>
                In entry (split LF text) /\ trim entry <> [] /\ entry <> [])
             titles.
Proof.
  intros svc query text Hlen Hsvc.
  exists (suggestionsOf (Some text)).
  split; [|split; [|split]].
  - rewrite (bookSuggestions_long svc query Hlen), Hsvc. reflexivity.
  - unfold suggestionsOf. f_equal. apply filter_ext, keepsLine_nonBlank.
  - unfold suggestionsOf. apply firstn_le_length.
  - unfold suggestionsOf. apply Forall_forall. intros entry Hin.
    apply In_firstn in Hin. apply filter_In in Hin. destruct Hin as [Hin Hk].
    split; [exact Hin|]. apply keepsLine_true, Hk.
Qed.

Lemma suggestions_first_nonblank_lines_witness :
  exists titles,
    bookSuggestions (fun _ => Completion (Some (lit " Dune")))
                    (Some (lit "du")) =
      (mkResponse 200 (Suggestions titles), [SuggestTitles (lit "du")]) /\
    titles = firstn 8 (filter nonBlank (split LF (lit " Dune"))) /\
    (List.length titles <= 8)%nat /\
    Forall (fun entry =>
              In entry (split LF (lit " Dune")) /\ trim entry <> [] /\ entry <> [])
           titles.
Proof.
  apply (suggestions_first_nonblank_lines
           (fun _ => Completion (Some (lit " Dune"))) (lit "du") (lit " Dune")).
  - simpl. lia.
  - reflexivity.
Defined.

(** C7, as the specification has it, fails: an entry is returned with the
    white space it has in the text. *)
Lemma suggestion_entry_not_trimmed :
  bookSuggestions (fun _ => Completion (Some (lit " Dune"))) (Some (lit "du")) =
    (mkResponse 200 (Suggestions [lit " Dune"]), [SuggestTitles (lit "du")]) /\
  trim (lit " Dune") <> lit " Dune".
Proof.
  split; [vm_compute; reflexivity|].
  vm_compute. discriminate.
Qed.

(** C8: a query of fewer than 2 code units is answered with the empty
    sequence and no call to the completion service. *)
Theorem short_query_empty_without_call :
  forall (svc : Service) (query : jsstring),
    (List.length query < 2)%nat ->
    bookSuggestions svc (Some query) =
    (mkResponse 200 (Suggestions []), []).
Proof.
  intros svc query Hlen. unfold bookSuggestions, tryCatch.
  rewrite orEmpty_some.
  destruct (Nat.ltb_spec (List.length query) 2) as [_ | Hge]; [|lia].
  reflexivity.
Qed.

Lemma short_query_empty_without_call_witness :
  bookSuggestions (fun _ => Completion (Some (lit "Dune"))) (Some (lit "a")) =
  (mkResponse 200 (Suggestions []), []).
Proof.
  apply (short_query_empty_without_call
           (fun _ => Completion (Some (lit "Dune"))) (lit "a")).
  simpl. lia.
Defined.

(* ================================================================== *)
(** * [POST /api/recommend-books] *)
(* ================================================================== *)

(** The route, case by case, once [books] has been read from the body. *)
Lemma recommendBooks_cases (svc : Service) (reqBody : json)
      (books : option json) :
  property reqBody (lit "books") = Some books ->
  recommendBooks svc reqBody =
  match books with
  | Some (JArray (b :: bs)) =>
      if (10 <? List.length (b :: bs))%nat then (tooMany, [])
      else if forallb stringifiable (b :: bs) then
        match svc (RecommendFor (b :: bs)) with
        | Completion content =>
            (mkResponse 200
               (RecommendationResponse (b :: bs)
                  (firstn 5 (parseRecommendations (orEmpty content)))),
             [RecommendFor (b :: bs)])
        | Rejected => (failed, [RecommendFor (b :: bs)])
        end
      else (failed, [])
  | _ => (tooFew, [])
  end.
Proof.
  intros Hbooks.
  unfold recommendBooks, tryCatch, bind, destructureBooks.
  rewrite Hbooks. unfold ret at 1.
  destruct books as [[ | | | |[|b bs]| ]|]; try reflexivity.
  destruct (10 <? List.length (b :: bs))%nat; [reflexivity|].
  unfold joinBooks.
  destruct (forallb stringifiable (b :: bs)); [|reflexivity].
  unfold create, ret at 1.
  destruct (svc (RecommendFor (b :: bs))); reflexivity.
Qed.

(** Strings convert. *)
Lemma strings_stringifiable (l : list json) :
  forallb isJString l = true -> forallb stringifiable l = true.
Proof.
  induction l as [|v l IH]; [reflexivity|].
  cbn [forallb]. rewrite !andb_true_iff. intros [Hv Hl].
  split; [|exact (IH Hl)].
  destruct v; try discriminate Hv. reflexivity.
Qed.

(** C9: the route answers with the validation failure (status 400) exactly
    when [books] is missing, not a list, empty, or has more than 10 entries;
    then the completion service is not called and the body is an error
    message, not a [RecommendationResponse]. *)
Theorem validation_failure_iff_rejected :
  forall (svc : Service) (reqBody : json) (books : option json),
    property reqBody (lit "books") = Some books ->
    (status (fst (recommendBooks svc reqBody)) = 400 <-> booksRejected books) /\
    (booksRejected books ->
     snd (recommendBooks svc reqBody) = [] /\
     exists msg, body (fst (recommendBooks svc reqBody)) = ErrorMessage msg).
Proof.
  intros svc reqBody books Hbooks.
  rewrite (recommendBooks_cases svc reqBody books Hbooks).
  unfold booksRejected.
  destruct books as [v|].
  2:{ split; [split; [intros _; left; reflexivity | reflexivity]|].
      intros _. split; [reflexivity | eexists; reflexivity]. }
  destruct v as [ | | | |[|b bs]| ];
    try (split; [split; [intros _; right; left; eexists; split;
                          [reflexivity | discriminate]
                        | reflexivity]
                | intros _; split; [reflexivity | eexists; reflexivity]]).
  - (* the empty list *)
    split; [split; [intros _; right; right; left; reflexivity | reflexivity]|].
    intros _. split; [reflexivity | eexists; reflexivity].
  - (* a non-empty list *)
    destruct (Nat.ltb_spec 10 (List.length (b :: bs))) as [Hlong | Hshort].
    + split; [split; [intros _; right; right; right; eexists; split;
                       [reflexivity | exact Hlong]
                     | reflexivity]|].
      intros _. split; [reflexivity | eexists; reflexivity].
    + assert (Hnot : ~ (Some (JArray (b :: bs)) = None \/
                (exists v, Some (JArray (b :: bs)) = Some v /\
                           forall l, v <> JArray l) \/
                Some (JArray (b :: bs)) = Some (JArray []) \/
                (exists l, Some (JArray (b :: bs)) = Some (JArray l) /\
                           (10 < List.length l)%nat))).
      { intros [H | [[v [Hv Hno]] | [H | [l [Hl Hlen]]]]].
        - discriminate.
        - injection Hv as <-. eapply Hno. reflexivity.
        - discriminate.
        - injection Hl as <-. lia. }
      split; [|intros H; contradiction].
      split; [|intros H; contradiction].
      destruct (forallb stringifiable (b :: bs));
        [destruct (svc (RecommendFor (b :: bs)))|]; simpl; discriminate.
Qed.

Lemma validation_failure_iff_rejected_witness :
  (status (fst (recommendBooks (fun _ => Rejected)
                  (JObject [(lit "books", JArray (repeat JNull 11))]))) = 400
   <-> booksRejected (Some (JArray (repeat JNull 11)))) /\
  (booksRejected (Some (JArray (repeat JNull 11))) ->
   snd (recommendBooks (fun _ => Rejected)
          (JObject [(lit "books", JArray (repeat JNull 11))])) = [] /\
   exists msg,
     body (fst (recommendBooks (fun _ => Rejected)
                  (JObject [(lit "books", JArray (repeat JNull 11))])))
     = ErrorMessage msg).
Proof.
  apply (validation_failure_iff_rejected (fun _ => Rejected)
           (JObject [(lit "books", JArray (repeat JNull 11))])
           (Some (JArray (repeat JNull 11)))).
  reflexivity.
Defined.

(** ** The structured decode *)

Lemma JSON_parse_empty : JSON_parse [] = None.
Proof. reflexivity. Qed.

Lemma parseTextRecommendations_empty : parseTextRecommendations [] = [].
Proof. reflexivity. Qed.

(** An object whose [recommendations] is a sequence is decoded to that
    sequence. *)
Lemma parseRecommendations_object (text : jsstring)
      (members : list (jsstring * json)) (items : list json) :
  JSON_parse text = Some (JObject members) ->
  getMember members (lit "recommendations") = Some (JArray items) ->
  parseRecommendations text = map Decoded items.
Proof.
  intros Hparse Hget.
  unfold parseRecommendations, decodeRecommendations.
  rewrite Hparse. unfold property. rewrite Hget. reflexivity.
Qed.

(** A decoded value of another shape sends the raw text to the line
    parser. *)
Lemma parseRecommendations_fallback (text : jsstring) (parsed : json) :
  JSON_parse text = Some parsed ->
  recognisedShape parsed = false ->
  parseRecommendations text = map Extracted (parseTextRecommendations text).
Proof.
  intros Hparse Hshape.
  unfold parseRecommendations, decodeRecommendations.
  rewrite Hparse.
  destruct parsed as [ | | | | items | members]; try reflexivity.
  - discriminate Hshape.
  - unfold property. unfold recognisedShape in Hshape.
    destruct (getMember members (lit "recommendations")) as [[ | | | | |]|];
      try reflexivity.
    discriminate Hshape.
Qed.

(** The route on a valid request whose books convert to strings and whose
    completion arrives. *)
Lemma recommendBooks_valid (svc : Service) (reqBody : json)
      (books : list json) (content : option jsstring) :
  property reqBody (lit "books") = Some (Some (JArray books)) ->
  (1 <= List.length books <= 10)%nat ->
  forallb stringifiable books = true ->
  svc (RecommendFor books) = Completion content ->
  recommendBooks svc reqBody =
  (mkResponse 200
     (RecommendationResponse books
        (firstn 5 (parseRecommendations (orEmpty content)))),
   [RecommendFor books]).
Proof.
  intros Hbooks Hcount Hstr Hsvc.
  rewrite (recommendBooks_cases svc reqBody _ Hbooks).
  destruct books as [|b bs]; [simpl in Hcount; lia|].
  destruct (Nat.ltb_spec 10 (List.length (b :: bs))) as [Hlong | _]; [lia|].
  rewrite Hstr, Hsvc. reflexivity.
Qed.

(** C3: when the text decodes to an object whose [recommendations] holds
    at most 5 elements, the parse step gives exactly these elements, as they
    were decoded, and the truncation to 5 keeps all of them. *)
Theorem decoded_recommendations_unchanged :
  forall (text : jsstring) (members : list (jsstring * json))
         (items : list json),
    JSON_parse text = Some (JObject members) ->
    getMember members (lit "recommendations") = Some (JArray items) ->
    (List.length items <= 5)%nat ->
    parseRecommendations text = map Decoded items /\
    firstn 5 (parseRecommendations text) = map Decoded items.
Proof.
  intros text members items Hparse Hget Hlen.
  rewrite (parseRecommendations_object text members items Hparse Hget).
  split; [reflexivity|].
  apply firstn_all2. rewrite length_map. exact Hlen.
Qed.

Lemma decoded_recommendations_unchanged_witness :
  parseRecommendations
    (quoted "{'recommendations':[{'title':'Dune','author':7},'x',null]}") =
  map Decoded
    [ JObject [(lit "title", JString (lit "Dune"));
               (lit "author", JNumber (lit "7"))];
      JString (lit "x"); JNull ] /\
  firstn 5 (parseRecommendations
    (quoted "{'recommendations':[{'title':'Dune','author':7},'x',null]}")) =
  map Decoded
    [ JObject [(lit "title", JString (lit "Dune"));
               (lit "author", JNumber (lit "7"))];
      JString (lit "x"); JNull ].
Proof.
  apply (decoded_recommendations_unchanged
           (quoted "{'recommendations':[{'title':'Dune','author':7},'x',null]}")
           [(lit "recommendations",
             JArray [ JObject [(lit "title", JString (lit "Dune"));
                               (lit "author", JNumber (lit "7"))];
                      JString (lit "x"); JNull ])]).
  - vm_compute. reflexivity.
  - vm_compute. reflexivity.
  - simpl. lia.
Defined.

Section ValidRequest.

Variable svc : Service.
Variable reqBody : json.
Variable books : list json.
Variable content : option jsstring.

Hypothesis body_has_books :
  property reqBody (lit "books") = Some (Some (JArray books)).
Hypothesis books_in_range : (1 <= List.length books <= 10)%nat.
Hypothesis books_are_strings : forallb isJString books = true.
Hypothesis service_answers : svc (RecommendFor books) = Completion content.

(** C1: on a valid request whose books are strings, whatever the
    completion text, the response carries at most 5 recommendations, the first 5 of the parsed records in their order; when
    the text decodes to an object whose [recommendations] has more than 5
    entries, exactly its first 5 entries are returned, in order. *)
Theorem recommendations_at_most_five :
  exists recs,
    recommendBooks svc reqBody =
      (mkResponse 200 (RecommendationResponse books recs),
       [RecommendFor books]) /\
    recs = firstn 5 (parseRecommendations (orEmpty content)) /\
    (List.length recs <= 5)%nat /\
    (forall members items,
        JSON_parse (orEmpty content) = Some (JObject members) ->
        getMember members (lit "recommendations") = Some (JArray items) ->
        (5 < List.length items)%nat ->
        recs = map Decoded (firstn 5 items) /\ List.length recs = 5%nat).
Proof.
  exists (firstn 5 (parseRecommendations (orEmpty content))).
  split; [|split; [|split]].
  - apply recommendBooks_valid; try assumption.
    apply strings_stringifiable, books_are_strings.
  - reflexivity.
  - apply firstn_le_length.
  - intros members items Hparse Hget Hlen.
    rewrite (parseRecommendations_object _ members items Hparse Hget).
    rewrite firstn_map. split; [reflexivity|].
    rewrite length_map, length_firstn. lia.
Qed.

(** C4: a text that decodes to a value of an unrecognised shape is given,
    as it stands, to the line parser, and the caller (of a valid request
    whose books are strings) receives a successful response built from the
    records of the line parser. *)
Theorem unrecognised_shape_falls_back :
  forall (text : jsstring) (parsed : json),
    content = Some text ->
    JSON_parse text = Some parsed ->
    recognisedShape parsed = false ->
    parseRecommendations text = map Extracted (parseTextRecommendations text) /\
    recommendBooks svc reqBody =
      (mkResponse 200
         (RecommendationResponse books
            (firstn 5 (map Extracted (parseTextRecommendations text)))),
       [RecommendFor books]).
Proof.
  intros text parsed Hcontent Hparse Hshape.
  pose proof (parseRecommendations_fallback text parsed Hparse Hshape) as Hfall.
  split; [exact Hfall|].
  rewrite (recommendBooks_valid svc reqBody books content
             body_has_books books_in_range
             (strings_stringifiable books books_are_strings) service_answers).
  rewrite Hcontent, orEmpty_some, Hfall. reflexivity.
Qed.

(** C10: when the completion has no text (missing or empty), the text is
    the empty string, its decoding fails, the line parser finds no record,
    and the route (on a valid request whose books are strings) answers
    successfully with no recommendation. *)
Theorem missing_content_gives_no_recommendation :
  content = None \/ content = Some [] ->
  orEmpty content = [] /\
  JSON_parse (orEmpty content) = None /\
  parseTextRecommendations (orEmpty content) = [] /\
  recommendBooks svc reqBody =
    (mkResponse 200 (RecommendationResponse books []), [RecommendFor books]).
Proof.
  intros Hcontent.
  assert (Hempty : orEmpty content = []).
  { destruct Hcontent as [-> | ->]; reflexivity. }
  rewrite (recommendBooks_valid svc reqBody books content
             body_has_books books_in_range
             (strings_stringifiable books books_are_strings) service_answers).
  rewrite Hempty. repeat split; reflexivity.
Qed.

End ValidRequest.

Lemma recommendations_at_most_five_witness :
  recommendBooks (fun _ => Completion (Some sevenEntries)) oneBook =
  (mkResponse 200
     (RecommendationResponse [JString (lit "Dune")]
        (map Decoded (firstn 5 sevenItems))),
   [RecommendFor [JString (lit "Dune")]]).
Proof.
  destruct (recommendations_at_most_five
              (fun _ => Completion (Some sevenEntries)) oneBook
              [JString (lit "Dune")] (Some sevenEntries))
    as [recs [Hrun [_ [_ Hmany]]]].
  - reflexivity.
  - simpl. lia.
  - reflexivity.
  - reflexivity.
  - destruct (Hmany [(lit "recommendations", JArray sevenItems)] sevenItems)
      as [Hrecs _].
    + vm_compute. reflexivity.
    + vm_compute. reflexivity.
    + simpl. lia.
    + rewrite Hrun, Hrecs. reflexivity.
Defined.

Lemma unrecognised_shape_falls_back_witness :
  parseRecommendations quotedTitle =
    map Extracted (parseTextRecommendations quotedTitle) /\
  recommendBooks (fun _ => Completion (Some quotedTitle)) oneBook =
    (mkResponse 200
       (RecommendationResponse [JString (lit "Dune")]
          (firstn 5 (map Extracted (parseTextRecommendations quotedTitle)))),
     [RecommendFor [JString (lit "Dune")]]).
Proof.
  apply (unrecognised_shape_falls_back
           (fun _ => Completion (Some quotedTitle)) oneBook
           [JString (lit "Dune")] (Some quotedTitle))
    with (parsed := JString (lit "Title: Dune")).
  - reflexivity.
  - simpl. lia.
  - reflexivity.
  - reflexivity.
  - reflexivity.
  - vm_compute. reflexivity.
  - reflexivity.
Defined.

Lemma missing_content_gives_no_recommendation_witness :
  orEmpty None = [] /\
  JSON_parse (orEmpty None) = None /\
  parseTextRecommendations (orEmpty None) = [] /\
  recommendBooks (fun _ => Completion None) oneBook =
    (mkResponse 200 (RecommendationResponse [JString (lit "Dune")] []),
     [RecommendFor [JString (lit "Dune")]]).
Proof.
  apply (missing_content_gives_no_recommendation
           (fun _ => Completion None) oneBook [JString (lit "Dune")] None).
  - reflexivity.
  - simpl. lia.
  - reflexivity.
  - reflexivity.
  - left. reflexivity.
Defined.

(* ================================================================== *)
(** * Further properties: the string operations *)
(* ================================================================== *)

Lemma dropWhile_head (p : N -> bool) (s : jsstring) (c : N) (r : jsstring) :
  dropWhile p s = c :: r -> p c = false.
Proof.
  induction s as [|x t IH]; simpl; [discriminate|].
  destruct (p x) eqn:E; [exact IH|].
  intros H; injection H as <- _. exact E.
Qed.

Lemma dropWhile_fixed (p : N -> bool) (s : jsstring) :
  (forall c r, s = c :: r -> p c = false) -> dropWhile p s = s.
Proof.
  destruct s as [|c r]; [reflexivity|].
  intros H. simpl. rewrite (H c r eq_refl). reflexivity.
Qed.

(** [trimEnd] keeps a prefix of its argument. *)
Lemma trimEnd_prefix (s : jsstring) : exists w, s = trimEnd s ++ w.
Proof.
  unfold trimEnd.
  assert (H : forall x : jsstring, exists w, x = rev w ++ dropWhile isWhiteSpace x).
  { induction x as [|c r [w Hw]]; [exists []; reflexivity|].
    simpl. destruct (isWhiteSpace c).
    - exists (w ++ [c]). rewrite rev_app_distr. simpl. f_equal. exact Hw.
    - exists []. reflexivity. }
  destruct (H (rev s)) as [w Hw]. exists w.
  rewrite <- (rev_involutive s) at 1. rewrite Hw at 1.
  rewrite rev_app_distr, rev_involutive. reflexivity.
Qed.

Lemma trimEnd_last (s : jsstring) (c : N) (r : jsstring) :
  trimEnd s = r ++ [c] -> isWhiteSpace c = false.
Proof.
  unfold trimEnd. intros H.
  apply (f_equal (@rev N)) in H.
  rewrite rev_involutive, rev_app_distr in H. simpl in H.
  exact (dropWhile_head _ _ _ _ H).
Qed.

Lemma trimEnd_fixed (s : jsstring) :
  (forall c r, s = r ++ [c] -> isWhiteSpace c = false) -> trimEnd s = s.
Proof.
  intros H. unfold trimEnd.
  rewrite dropWhile_fixed; [apply rev_involutive|].
  intros c r E. apply (H c (rev r)).
  rewrite <- (rev_involutive s), E. reflexivity.
Qed.

Lemma trim_noEdgeSpace (s : jsstring) : noEdgeSpace (trim s).
Proof.
  split.
  - intros c r E. unfold trim in E.
    destruct (trimEnd_prefix (trimStart s)) as [w Hw].
    rewrite E in Hw. simpl in Hw.
    exact (dropWhile_head _ _ _ _ Hw).
  - intros c r E. exact (trimEnd_last _ _ _ E).
Qed.

Lemma noEdgeSpace_trim (s : jsstring) : noEdgeSpace s -> trim s = s.
Proof.
  intros [Hhead Hlast]. unfold trim, trimStart.
  rewrite (dropWhile_fixed _ _ Hhead). apply trimEnd_fixed, Hlast.
Qed.

(** X1: [trim] leaves no white space at either end of its result, and
    trimming a second time changes nothing. *)
Theorem trim_idempotent :
  forall s : jsstring, noEdgeSpace (trim s) /\ trim (trim s) = trim s.
Proof.
  intros s. split; [apply trim_noEdgeSpace|].
  apply noEdgeSpace_trim, trim_noEdgeSpace.
Qed.

Lemma startsWith_app (s p : jsstring) :
  startsWith s p = true <-> exists b, s = p ++ b.
Proof.
  revert s. induction p as [|a p IH]; intros s.
  - split; [intros _; exists s; reflexivity | destruct s; reflexivity].
  - destruct s as [|c s']; simpl.
    + split; [discriminate | intros [b Hb]; discriminate].
    + rewrite andb_true_iff, N.eqb_eq, IH. split.
      * intros [-> [b ->]]. exists b. reflexivity.
      * intros [b Hb]. injection Hb as -> ->. split; [reflexivity|].
        exists b. reflexivity.
Qed.

Lemma includes_occurs :
  forall s t : jsstring,
    includes s t = true <-> exists a b, s = a ++ t ++ b.
Proof.
  induction s as [|c r IH]; intros t.
  - cbn [includes]. rewrite orb_false_r, startsWith_app. split.
    + intros [b Hb]. exists [], b. exact Hb.
    + intros [a [b Hab]]. destruct a as [|x a]; [exists b; exact Hab|].
      discriminate.
  - cbn [includes]. rewrite orb_true_iff, startsWith_app, IH. split.
    + intros [[b Hb] | [a [b Hab]]].
      * exists [], b. exact Hb.
      * exists (c :: a), b. rewrite Hab. reflexivity.
    + intros [[|x a] [b Hab]].
      * left. exists b. exact Hab.
      * right. injection Hab as _ Hr. exists a, b. exact Hr.
Qed.

(** X2: [includes] answers true exactly when the second string occurs in
    the first as a run of consecutive code units. *)
Theorem includes_iff_occurs :
  forall s t : jsstring,
    includes s t = true <-> exists a b, s = a ++ t ++ b.
Proof. exact includes_occurs. Qed.

Lemma split_nonempty (sep : N) (s : jsstring) : split sep s <> [].
Proof.
  destruct s as [|c r]; simpl; [discriminate|].
  destruct (c =? sep); [discriminate|].
  destruct (split sep r); discriminate.
Qed.

Lemma joinWith_split (sep : N) (s : jsstring) :
  joinWith sep (split sep s) = s.
Proof.
  induction s as [|c r IH]; [reflexivity|].
  simpl. destruct (N.eqb_spec c sep) as [-> | Hne].
  - pose proof (split_nonempty sep r) as Hn.
    cbn [joinWith]. destruct (split sep r) as [|l ls]; [contradiction|].
    simpl. f_equal. exact IH.
  - pose proof (split_nonempty sep r) as Hn.
    destruct (split sep r) as [|l ls]; [contradiction|].
    rewrite <- IH. cbn [joinWith]. destruct ls; reflexivity.
Qed.

Lemma split_pieces (sep : N) (s : jsstring) :
  Forall (fun piece => ~ In sep piece) (split sep s).
Proof.
  induction s as [|c r IH]; simpl.
  - constructor; [intros []|constructor].
  - destruct (N.eqb_spec c sep) as [-> | Hne].
    + constructor; [intros []|exact IH].
    + destruct (split sep r) as [|l ls].
      * constructor; [|constructor]. intros [H | []]. congruence.
      * inversion IH as [|? ? Hl Hls]; subst.
        constructor; [|exact Hls].
        intros [H | H]; [congruence | exact (Hl H)].
Qed.

(** X3: [split] loses nothing: the pieces joined with the separator are the
    text again; no piece holds the separator; and there is always at least
    one piece. *)
Theorem split_join_roundtrip :
  forall (sep : N) (s : jsstring),
    joinWith sep (split sep s) = s /\
    Forall (fun piece => ~ In sep piece) (split sep s) /\
    split sep s <> [].
Proof.
  intros sep s.
  split; [apply joinWith_split|].
  split; [apply split_pieces | apply split_nonempty].
Qed.

(** Splitting a text made of two parts with a separator between them gives
    the pieces of the first part followed by those of the second. *)
Lemma split_at_separator :
  forall (sep : N) (s t : jsstring),
    split sep (s ++ sep :: t) = split sep s ++ split sep t.
Proof.
  intros sep s t. induction s as [|c r IH]; simpl.
  - rewrite N.eqb_refl. reflexivity.
  - destruct (c =? sep); [rewrite IH; reflexivity|].
    rewrite IH. pose proof (split_nonempty sep r) as Hn.
    destruct (split sep r) as [|l ls]; [contradiction|]. reflexivity.
Qed.

(* ================================================================== *)
(** * Further properties: the line parser *)
(* ================================================================== *)

(** A line that begins a record: the current record is pushed when it has a
    title, and the title of the line is taken. *)
Lemma parseLine_start (recs : list PartialBook) (cur : PartialBook)
      (line : jsstring) :
  beginsRecord line = true ->
  parseLine (recs, cur) line =
  (if truthy (title cur) then recs ++ [cur] else recs,
   let kept := if truthy (title cur) then emptyBook else cur in
   mkBook (Some (extractTitle line)) (author kept) (reason kept) (genre kept)).
Proof.
  unfold beginsRecord, parseLine. intros ->.
  destruct (truthy (title cur)); reflexivity.
Qed.

(** Any other line pushes nothing and leaves the title as it is. *)
Lemma parseLine_other (recs : list PartialBook) (cur : PartialBook)
      (line : jsstring) :
  beginsRecord line = false ->
  fst (parseLine (recs, cur) line) = recs /\
  title (snd (parseLine (recs, cur) line)) = title cur.
Proof.
  unfold beginsRecord, parseLine. intros ->.
  destruct (includes (toLowerCase line) (lit "author:")); [split; reflexivity|].
  destruct (includes (toLowerCase line) (lit "reason:")
            || includes (toLowerCase line) (lit "why:")); [split; reflexivity|].
  destruct (includes (toLowerCase line) (lit "genre:")); split; reflexivity.
Qed.

Lemma pendingTitle_extract (line : jsstring) (a r g : option jsstring) :
  pendingTitle (mkBook (Some (extractTitle line)) a r g) =
  map Some (filter nonEmpty [extractTitle line]).
Proof.
  unfold pendingTitle. simpl. destruct (extractTitle line); reflexivity.
Qed.

Lemma finish_titles (recs : list PartialBook) (cur : PartialBook) :
  map title (finish (recs, cur)) = map title recs ++ pendingTitle cur.
Proof.
  unfold finish, pendingTitle.
  destruct (truthy (title cur)); [|rewrite app_nil_r; reflexivity].
  rewrite map_app. reflexivity.
Qed.

Lemma fold_parseLine_titles (lines : list jsstring) :
  forall recs cur,
    map title (finish (fold_left parseLine lines (recs, cur))) =
    map title recs ++ pendingTitle cur ++ map Some (startTitles lines).
Proof.
  induction lines as [|line lines IH]; intros recs cur.
  - cbn [fold_left]. rewrite finish_titles.
    unfold startTitles. simpl. rewrite app_nil_r. reflexivity.
  - cbn [fold_left].
    destruct (beginsRecord line) eqn:Hb.
    + rewrite (parseLine_start recs cur line Hb). cbv zeta.
      rewrite IH, pendingTitle_extract.
      unfold startTitles. simpl. rewrite Hb. simpl.
      unfold pendingTitle.
      destruct (truthy (title cur));
        destruct (nonEmpty (extractTitle line)); simpl;
        rewrite ?map_app, <- ?app_assoc; reflexivity.
    + destruct (parseLine (recs, cur) line) as [recs' cur'] eqn:E.
      destruct (parseLine_other recs cur line Hb) as [Hr Ht].
      rewrite E in Hr, Ht. simpl in Hr, Ht. subst recs'.
      rewrite IH. unfold pendingTitle at 1. rewrite Ht.
      unfold startTitles. simpl. rewrite Hb. reflexivity.
Qed.

(** X4: the titles of the records returned by [parseTextRecommendations]
    are exactly the non-empty titles extracted from the record-start lines of
    the text, in the order of the lines. *)
Theorem titles_are_start_line_titles :
  forall text : jsstring,
    map title (parseTextRecommendations text) =
    map Some (filter nonEmpty
                (map extractTitle (filter beginsRecord (textLines text)))).
Proof.
  intros text. unfold parseTextRecommendations.
  rewrite fold_parseLine_titles. reflexivity.
Qed.

Lemma filter_length_le {A} (f : A -> bool) (l : list A) :
  (List.length (filter f l) <= List.length l)%nat.
Proof.
  induction l as [|a l IH]; simpl; [lia|].
  destruct (f a); simpl; lia.
Qed.

(** X5: there is at most one record per record-start line; a text none of
    whose lines begins a record gives no record at all, whatever author,
    reason or genre lines it has. *)
Theorem records_bounded_by_start_lines :
  forall text : jsstring,
    (List.length (parseTextRecommendations text) <=
     List.length (filter beginsRecord (textLines text)))%nat /\
    (Forall (fun line => beginsRecord line = false) (textLines text) ->
     parseTextRecommendations text = []).
Proof.
  intros text.
  assert (H : map title (parseTextRecommendations text) =
              map Some (filter nonEmpty
                          (map extractTitle
                               (filter beginsRecord (textLines text))))).
  { unfold parseTextRecommendations.
    rewrite fold_parseLine_titles. reflexivity. }
  apply (f_equal (@List.length _)) in H.
  rewrite !length_map in H.
  pose proof (filter_length_le nonEmpty
                (map extractTitle (filter beginsRecord (textLines text)))) as Hle.
  rewrite length_map in Hle.
  split; [lia|].
  intros Hnone.
  assert (Hf : filter beginsRecord (textLines text) = []).
  { clear H Hle. induction Hnone as [|l ls Hl _ IH]; [reflexivity|].
    simpl. rewrite Hl. exact IH. }
  rewrite Hf in H. simpl in H.
  destruct (parseTextRecommendations text); [reflexivity|discriminate].
Qed.

Lemma fieldsTrimmed_empty : fieldsTrimmed emptyBook.
Proof. intros v [H | [H | [H | H]]]; discriminate. Qed.

Lemma parseLine_trimmed (recs : list PartialBook) (cur : PartialBook)
      (line : jsstring) :
  Forall fieldsTrimmed recs -> fieldsTrimmed cur ->
  Forall fieldsTrimmed (fst (parseLine (recs, cur) line)) /\
  fieldsTrimmed (snd (parseLine (recs, cur) line)).
Proof.
  intros Hrecs Hcur.
  assert (Hset : forall t a r g,
            (forall v, t = Some v -> noEdgeSpace v) ->
            (forall v, a = Some v -> noEdgeSpace v) ->
            (forall v, r = Some v -> noEdgeSpace v) ->
            (forall v, g = Some v -> noEdgeSpace v) ->
            fieldsTrimmed (mkBook t a r g)).
  { intros t a r g Ht Ha Hr Hg v [H | [H | [H | H]]]; simpl in H; eauto. }
  assert (Hnew : forall x v, Some (trim x) = Some v -> noEdgeSpace v).
  { intros x v H. injection H as <-. apply trim_noEdgeSpace. }
  assert (Ht : forall v, title cur = Some v -> noEdgeSpace v) by (intros; apply Hcur; auto).
  assert (Ha : forall v, author cur = Some v -> noEdgeSpace v) by (intros; apply Hcur; auto).
  assert (Hr : forall v, reason cur = Some v -> noEdgeSpace v) by (intros; apply Hcur; auto).
  assert (Hg : forall v, genre cur = Some v -> noEdgeSpace v) by (intros; apply Hcur; auto).
  unfold parseLine.
  destruct (startsRecord (toLowerCase line)).
  - destruct (truthy (title cur)); simpl; split.
    + apply Forall_app. split; [exact Hrecs|]. constructor; [exact Hcur|constructor].
    + apply Hset; try (intros; discriminate). apply Hnew.
    + exact Hrecs.
    + apply Hset; auto. apply Hnew.
  - destruct (includes (toLowerCase line) (lit "author:")).
    { simpl. split; [exact Hrecs|]. apply Hset; auto. apply Hnew. }
    destruct (includes (toLowerCase line) (lit "reason:")
              || includes (toLowerCase line) (lit "why:")).
    { simpl. split; [exact Hrecs|]. apply Hset; auto. apply Hnew. }
    destruct (includes (toLowerCase line) (lit "genre:")).
    { simpl. split; [exact Hrecs|]. apply Hset; auto. apply Hnew. }
    simpl. split; assumption.
Qed.

Lemma fold_parseLine_trimmed (lines : list jsstring) :
  forall st,
    Forall fieldsTrimmed (fst st) -> fieldsTrimmed (snd st) ->
    Forall fieldsTrimmed (fst (fold_left parseLine lines st)) /\
    fieldsTrimmed (snd (fold_left parseLine lines st)).
Proof.
  induction lines as [|line lines IH]; intros [recs cur] Hr Hc.
  - split; assumption.
  - cbn [fold_left].
    destruct (parseLine_trimmed recs cur line Hr Hc) as [Hr' Hc'].
    destruct (parseLine (recs, cur) line) as [recs' cur'].
    apply IH; assumption.
Qed.

(** X6: every field that a returned record has (title, author, reason or
    genre) is trimmed: it has no white space at its start or at its end. *)
Theorem record_fields_are_trimmed :
  forall (text : jsstring) (b : PartialBook) (v : jsstring),
    In b (parseTextRecommendations text) ->
    title b = Some v \/ author b = Some v \/ reason b = Some v \/
    genre b = Some v ->
    noEdgeSpace v /\ trim v = v.
Proof.
  intros text b v Hin Hfield.
  assert (H : Forall fieldsTrimmed (parseTextRecommendations text)).
  { unfold parseTextRecommendations.
    destruct (fold_parseLine_trimmed (textLines text) ([], emptyBook))
      as [Hr Hc]; [constructor | apply fieldsTrimmed_empty |].
    destruct (fold_left parseLine (textLines text) ([], emptyBook))
      as [recs cur].
    cbn [finish]. cbn [fst snd] in Hr, Hc.
    destruct (truthy (title cur)); [|exact Hr].
    apply Forall_app. split; [exact Hr|]. constructor; [exact Hc|constructor]. }
  rewrite Forall_forall in H.
  pose proof (H b Hin v Hfield) as Hv.
  split; [exact Hv | apply noEdgeSpace_trim, Hv].
Qed.

Lemma record_fields_are_trimmed_witness :
  noEdgeSpace (lit "Frank Herbert") /\ trim (lit "Frank Herbert") = lit "Frank Herbert".
Proof.
  apply (record_fields_are_trimmed sixLines
           (mkBook (Some (lit "Dune")) (Some (lit "Frank Herbert"))
                   (Some (lit "Epic scope")) (Some (lit "Sci-fi")))
           (lit "Frank Herbert")).
  - vm_compute. left. reflexivity.
  - right. left. reflexivity.
Defined.

(** ** Blank lines *)

Lemma split_all (p : N -> bool) (sep : N) (s : jsstring) :
  forallb p s = true ->
  Forall (fun piece => forallb p piece = true) (split sep s).
Proof.
  induction s as [|c r IH]; simpl.
  - intros _. constructor; [reflexivity|constructor].
  - rewrite andb_true_iff. intros [Hc Hr]. specialize (IH Hr).
    destruct (c =? sep).
    + constructor; [reflexivity|exact IH].
    + destruct (split sep r) as [|l ls].
      * constructor; [simpl; rewrite Hc; reflexivity|constructor].
      * inversion IH as [|? ? Hl Hls]; subst.
        constructor; [simpl; rewrite Hc, Hl; reflexivity|exact Hls].
Qed.

Lemma dropWhile_all (p : N -> bool) (s : jsstring) :
  forallb p s = true -> dropWhile p s = [].
Proof.
  induction s as [|c r IH]; simpl; [reflexivity|].
  destruct (p c); [exact IH|discriminate].
Qed.

Lemma blank_nonBlank (line : jsstring) :
  forallb isWhiteSpace line = true -> nonBlank line = false.
Proof.
  intros H. unfold nonBlank, trim, trimStart.
  rewrite (dropWhile_all _ _ H). reflexivity.
Qed.

Lemma textLines_blank (b : jsstring) :
  forallb isWhiteSpace b = true -> textLines b = [].
Proof.
  intros H. unfold textLines.
  pose proof (split_all isWhiteSpace LF b H) as Hall.
  induction Hall as [|l ls Hl _ IH]; [reflexivity|].
  simpl. rewrite (blank_nonBlank l Hl). exact IH.
Qed.

Lemma textLines_app (s t : jsstring) :
  textLines (s ++ LF :: t) = textLines s ++ textLines t.
Proof.
  unfold textLines. rewrite split_at_separator, filter_app. reflexivity.
Qed.

Lemma parse_blank_part (s b t : jsstring) :
  forallb isWhiteSpace b = true ->
  parseTextRecommendations (b ++ LF :: t) = parseTextRecommendations t /\
  parseTextRecommendations (s ++ LF :: b) = parseTextRecommendations s /\
  parseTextRecommendations (s ++ LF :: b ++ LF :: t) =
    parseTextRecommendations (s ++ LF :: t).
Proof.
  intros Hb. unfold parseTextRecommendations.
  rewrite !textLines_app, (textLines_blank b Hb), app_nil_r.
  repeat split; reflexivity.
Qed.



(** ** The forms of a line *)

Lemma toLowerCase_app (a b : jsstring) :
  toLowerCase (a ++ b) = toLowerCase a ++ toLowerCase b.
Proof. unfold toLowerCase. apply flat_map_app. Qed.

Lemma lowerUnit_variant (a c : N) :
  isLabelUnit a = true ->
  canonicalize c = canonicalize a ->
  lowerUnit c = [a].
Proof.
  unfold isLabelUnit, canonicalize, lowerUnit.
  destruct (N.leb_spec 97 a), (N.leb_spec a 122), (N.eqb_spec a 58);
    simpl; try discriminate; intros _;
    destruct (N.leb_spec 97 c), (N.leb_spec c 122); simpl; intros E;
    destruct (N.leb_spec 65 c), (N.leb_spec c 90); simpl;
    destruct (N.eqb_spec c 0x130), (N.eqb_spec c 0x212A);
    try (f_equal; lia); try lia.
Qed.

Lemma toLowerCase_variant (tok : jsstring) :
  forallb isLabelUnit tok = true ->
  forall L, sameIgnoringCase L tok -> toLowerCase L = tok.
Proof.
  unfold sameIgnoringCase.
  induction tok as [|a tok IH]; intros Htok [|c L] E; try discriminate.
  - reflexivity.
  - simpl in Htok. apply andb_true_iff in Htok. destruct Htok as [Ha Htok].
    simpl in E. injection E as Ec EL.
    unfold toLowerCase. simpl. rewrite (lowerUnit_variant a c Ha Ec).
    simpl. f_equal. apply (IH Htok L EL).
Qed.

Lemma matchIgnoreCase_variant (p : jsstring) :
  forall L rest, sameIgnoringCase L p -> matchIgnoreCase p (L ++ rest) = Some rest.
Proof.
  unfold sameIgnoringCase.
  induction p as [|a p IH]; intros [|c L] rest E; try discriminate.
  - destruct rest; reflexivity.
  - simpl in E. injection E as Ec EL. simpl.
    rewrite Ec, N.eqb_refl. apply IH, EL.
Qed.

Lemma includes_variant (tok L rest : jsstring) :
  forallb isLabelUnit tok = true ->
  sameIgnoringCase L tok ->
  includes (toLowerCase (L ++ rest)) tok = true.
Proof.
  intros Htok E. apply includes_occurs.
  exists [], (toLowerCase rest).
  rewrite toLowerCase_app, (toLowerCase_variant tok Htok L E). reflexivity.
Qed.

Lemma trim_dropWhile (s : jsstring) : trim (dropWhile isWhiteSpace s) = trim s.
Proof.
  unfold trim, trimStart. f_equal.
  apply dropWhile_fixed. intros c r E. exact (dropWhile_head _ _ _ _ E).
Qed.

Lemma takeWhile_digits (ds rest : jsstring) :
  forallb isDigit ds = true ->
  takeWhile isDigit (ds ++ 46 :: rest) = ds /\
  dropWhile isDigit (ds ++ 46 :: rest) = 46 :: rest.
Proof.
  induction ds as [|d ds IH]; simpl.
  - intros _. split; reflexivity.
  - destruct (isDigit d); [|discriminate]. simpl. intros H.
    destruct (IH H) as [-> ->]. split; reflexivity.
Qed.

Lemma matchNumberMarker_digits (ds rest : jsstring) :
  ds <> [] -> forallb isDigit ds = true ->
  matchNumberMarker (ds ++ 46 :: rest) = Some rest.
Proof.
  intros Hne Hds. unfold matchNumberMarker.
  destruct (takeWhile_digits ds rest Hds) as [-> ->].
  destruct ds; [contradiction|reflexivity].
Qed.

Lemma toLowerCase_digits (ds : jsstring) :
  forallb isDigit ds = true -> toLowerCase ds = ds.
Proof.
  induction ds as [|d ds IH]; [reflexivity|].
  simpl. rewrite andb_true_iff. intros [Hd Hds].
  unfold toLowerCase in *. simpl. rewrite (IH Hds).
  unfold isDigit in Hd. apply andb_true_iff in Hd. destruct Hd as [H1 H2].
  apply N.leb_le in H1, H2. unfold lowerUnit.
  destruct (N.leb_spec 65 d); [lia|]. simpl.
  destruct (N.eqb_spec d 0x130); [lia|].
  destruct (N.eqb_spec d 0x212A); [lia|]. reflexivity.
Qed.

(** X8: a line made of a numeric marker (digits and a period) and a rest
    begins a record, and its title is the rest, trimmed; a [title:] label in
    the rest is not removed. *)
Theorem marker_line_title :
  forall ds rest : jsstring,
    ds <> [] -> forallb isDigit ds = true ->
    beginsRecord (ds ++ 46 :: rest) = true /\
    extractTitle (ds ++ 46 :: rest) = trim rest.
Proof.
  intros ds rest Hne Hds. split.
  - unfold beginsRecord, startsRecord.
    rewrite toLowerCase_app, (toLowerCase_digits ds Hds).
    change (toLowerCase (46 :: rest)) with (46 :: toLowerCase rest).
    rewrite (matchNumberMarker_digits ds (toLowerCase rest) Hne Hds).
    apply orb_true_r.
  - unfold extractTitle, replaceTitle.
    rewrite (matchNumberMarker_digits ds rest Hne Hds). reflexivity.
Qed.

Lemma marker_line_title_witness :
  beginsRecord (lit "12" ++ 46 :: lit " Title: Dune") = true /\
  extractTitle (lit "12" ++ 46 :: lit " Title: Dune") = trim (lit " Title: Dune").
Proof.
  apply (marker_line_title (lit "12") (lit " Title: Dune")).
  - discriminate.
  - reflexivity.
Defined.

Lemma canonicalize_letter (c a : N) :
  (97 <=? a) && (a <=? 122) = true ->
  canonicalize c = canonicalize a ->
  isDigit c = false /\ isWordChar c = true.
Proof.
  unfold canonicalize, isWordChar, isDigit.
  destruct (N.leb_spec 97 a), (N.leb_spec a 122); simpl; try discriminate.
  intros _.
  destruct (N.leb_spec 97 c), (N.leb_spec c 122),
           (N.leb_spec 65 c), (N.leb_spec c 90),
           (N.leb_spec 48 c), (N.leb_spec c 57);
    simpl; intros E; try lia; split; reflexivity.
Qed.

(** X9: a line made of the label [title:], in any mix of upper and lower
    case, and a rest begins a record, and its title is the rest, trimmed. *)
Theorem label_line_title :
  forall L rest : jsstring,
    sameIgnoringCase L (lit "title:") ->
    beginsRecord (L ++ rest) = true /\
    extractTitle (L ++ rest) = trim rest.
Proof.
  intros L rest E. split.
  - unfold beginsRecord, startsRecord.
    rewrite (includes_variant (lit "title:") L rest eq_refl E). reflexivity.
  - pose proof (matchIgnoreCase_variant (lit "title:") L rest E) as Hm.
    destruct L as [|c L]; [discriminate E|].
    assert (Hc : canonicalize c = canonicalize 116).
    { unfold sameIgnoringCase in E. simpl in E. injection E as Ec _. exact Ec. }
    destruct (canonicalize_letter c 116 eq_refl Hc) as [Hd Hw].
    unfold extractTitle, replaceTitle, matchNumberMarker.
    cbn [app takeWhile]. rewrite Hd.
    cbn [replaceTitleLabel]. rewrite Hw. cbn [xorb].
    unfold matchLabel. cbn [app] in Hm. rewrite Hm.
    apply trim_dropWhile.
Qed.

Lemma label_line_title_witness :
  beginsRecord (lit "TiTLE:" ++ lit "  Dune ") = true /\
  extractTitle (lit "TiTLE:" ++ lit "  Dune ") = trim (lit "  Dune ").
Proof.
  apply (label_line_title (lit "TiTLE:") (lit "  Dune ")).
  reflexivity.
Defined.

(** X10: a line that does not begin a record and is made of the label
    [author:], in any mix of case, and a rest sets the author of the current
    record to the rest, trimmed; nothing else changes and nothing is
    pushed. *)
Theorem author_line_sets_author :
  forall (recs : list PartialBook) (cur : PartialBook) (L rest : jsstring),
    sameIgnoringCase L (lit "author:") ->
    beginsRecord (L ++ rest) = false ->
    parseLine (recs, cur) (L ++ rest) =
    (recs, mkBook (title cur) (Some (trim rest)) (reason cur) (genre cur)).
Proof.
  intros recs cur L rest E Hb.
  unfold parseLine. unfold beginsRecord in Hb. rewrite Hb.
  rewrite (includes_variant (lit "author:") L rest eq_refl E).
  pose proof (matchIgnoreCase_variant (lit "author:") L rest E) as Hm.
  destruct L as [|c L]; [discriminate E|].
  cbn [app] in Hm |- *. cbn [replaceLabels matchLabels].
  unfold matchLabel. rewrite Hm. rewrite trim_dropWhile. reflexivity.
Qed.

Lemma author_line_sets_author_witness :
  parseLine ([], emptyBook) (lit "AUTHOR:" ++ lit " Frank Herbert") =
  ([], mkBook None (Some (trim (lit " Frank Herbert"))) None None).
Proof.
  apply (author_line_sets_author [] emptyBook (lit "AUTHOR:") (lit " Frank Herbert")).
  - reflexivity.
  - reflexivity.
Defined.

(* ================================================================== *)
(** * Further properties: [GET /api/book-suggestions] *)
(* ================================================================== *)

(** The route, case by case. *)
Lemma bookSuggestions_cases (svc : Service) (q : option jsstring) :
  bookSuggestions svc q =
  if (List.length (orEmpty q) <? 2)%nat
  then (mkResponse 200 (Suggestions []), [])
  else
    match svc (SuggestTitles (orEmpty q)) with
    | Completion content =>
        (mkResponse 200 (Suggestions (suggestionsOf content)),
         [SuggestTitles (orEmpty q)])
    | Rejected =>
        (mkResponse 500 (ErrorMessage "Failed to fetch book suggestions"),
         [SuggestTitles (orEmpty q)])
    end.
Proof.
  unfold bookSuggestions, tryCatch.
  destruct (List.length (orEmpty q) <? 2)%nat; [reflexivity|].
  unfold bind, create, ret.
  destruct (svc (SuggestTitles (orEmpty q))); reflexivity.
Qed.

(** X11: the suggestion route calls the completion service at most once,
    and not at all exactly when the query (the empty string when [q] is
    missing) has fewer than 2 code units; it answers 200 or 500, and 500
    exactly when the call was made and failed. *)
Theorem bookSuggestions_outcomes :
  forall (svc : Service) (q : option jsstring),
    (List.length (snd (bookSuggestions svc q)) <= 1)%nat /\
    (snd (bookSuggestions svc q) = [] <-> (List.length (orEmpty q) < 2)%nat) /\
    (status (fst (bookSuggestions svc q)) = 500 <->
     (2 <= List.length (orEmpty q))%nat /\
     svc (SuggestTitles (orEmpty q)) = Rejected) /\
    (status (fst (bookSuggestions svc q)) = 200 \/
     status (fst (bookSuggestions svc q)) = 500).
Proof.
  intros svc q. rewrite (bookSuggestions_cases svc q).
  destruct (Nat.ltb_spec (List.length (orEmpty q)) 2) as [Hlt | Hge].
  - cbn [fst snd status List.length].
    split; [lia|].
    split; [split; [intros _; exact Hlt | reflexivity]|].
    split; [split; [discriminate | intros [H _]; lia] | left; reflexivity].
  - destruct (svc (SuggestTitles (orEmpty q))) eqn:E;
      cbn [fst snd status List.length].
    + split; [lia|].
      split; [split; [discriminate | intros H; lia]|].
      split; [split; [discriminate | intros [_ H]; discriminate]
             | left; reflexivity].
    + split; [lia|].
      split; [split; [discriminate | intros H; lia]|].
      split; [split; [intros _; split; [exact Hge | reflexivity] | reflexivity]
             | right; reflexivity].
Qed.

Lemma split_pieces_no_sep (sep : N) (s piece : jsstring) :
  In piece (split sep s) -> ~ In sep piece.
Proof.
  pose proof (split_pieces sep s) as H.
  rewrite Forall_forall in H. apply H.
Qed.

(** X12: whatever the service returns, a list of suggestions sent by the
    route has at most 8 entries, and each entry is one line: it holds no
    line feed and it is not blank. *)
Theorem suggestions_are_single_lines :
  forall (svc : Service) (q : option jsstring) (titles : list jsstring),
    body (fst (bookSuggestions svc q)) = Suggestions titles ->
    (List.length titles <= 8)%nat /\
    Forall (fun entry => ~ In LF entry /\ nonBlank entry = true) titles.
Proof.
  intros svc q titles. rewrite (bookSuggestions_cases svc q).
  assert (Hnil : (List.length (@nil jsstring) <= 8)%nat /\
                 Forall (fun entry => ~ In LF entry /\ nonBlank entry = true) [])
    by (split; [simpl; lia | constructor]).
  destruct (List.length (orEmpty q) <? 2)%nat.
  { simpl. intros H; injection H as <-. exact Hnil. }
  destruct (svc (SuggestTitles (orEmpty q))) as [content|]; simpl;
    [|discriminate].
  intros H; injection H as <-.
  destruct content as [text|]; [|exact Hnil].
  unfold suggestionsOf. split; [apply firstn_le_length|].
  apply Forall_forall. intros entry Hin.
  apply In_firstn in Hin. apply filter_In in Hin. destruct Hin as [Hin Hk].
  split; [exact (split_pieces_no_sep LF text entry Hin)|].
  rewrite <- keepsLine_nonBlank. exact Hk.
Qed.

Lemma suggestions_are_single_lines_witness :
  (List.length [lit " Dune"; lit "Emma"] <= 8)%nat /\
  Forall (fun entry => ~ In LF entry /\ nonBlank entry = true)
         [lit " Dune"; lit "Emma"].
Proof.
  apply (suggestions_are_single_lines
           (fun _ => Completion (Some (lit " Dune" ++ LF :: LF :: lit "Emma")))
           (Some (lit "du"))).
  reflexivity.
Defined.

(** X13: when the completion has no content, or a content of white space
    only, the route answers 200 with the empty list. *)
Theorem blank_completion_gives_no_suggestion :
  forall (svc : Service) (query : jsstring) (content : option jsstring),
    (2 <= List.length query)%nat ->
    svc (SuggestTitles query) = Completion content ->
    (content = None \/
     exists text, content = Some text /\ forallb isWhiteSpace text = true) ->
    bookSuggestions svc (Some query) =
    (mkResponse 200 (Suggestions []), [SuggestTitles query]).
Proof.
  intros svc query content Hlen Hsvc Hblank.
  rewrite (bookSuggestions_long svc query Hlen), Hsvc.
  destruct Hblank as [-> | [text [-> Hws]]]; [reflexivity|].
  unfold suggestionsOf.
  rewrite (filter_ext keepsLine nonBlank keepsLine_nonBlank).
  change (filter nonBlank (split LF text)) with (textLines text).
  rewrite (textLines_blank text Hws). reflexivity.
Qed.

Lemma blank_completion_gives_no_suggestion_witness :
  bookSuggestions (fun _ => Completion (Some [32; LF; 9; LF])) (Some (lit "du")) =
  (mkResponse 200 (Suggestions []), [SuggestTitles (lit "du")]).
Proof.
  apply (blank_completion_gives_no_suggestion
           (fun _ => Completion (Some [32; LF; 9; LF])) (lit "du")
           (Some [32; LF; 9; LF])).
  - simpl. lia.
  - reflexivity.
  - right. exists [32; LF; 9; LF]. split; reflexivity.
Defined.

(* ================================================================== *)
(** * Further properties: [POST /api/recommend-books] *)
(* ================================================================== *)

(** A body from which [books] cannot be read. *)
Lemma recommendBooks_unreadable (svc : Service) (reqBody : json) :
  property reqBody (lit "books") = None ->
  recommendBooks svc reqBody = (failed, []).
Proof.
  intros H. unfold recommendBooks, tryCatch, bind, destructureBooks.
  rewrite H. reflexivity.
Qed.

(** X14: for a request whose books are strings, a response with status
    200 means that [books] was a list of 1 to 10 entries, that the service
    was called once, for these books, and answered; the response echoes the
    list as [inputBooks] and carries at most 5 recommendations. *)
Theorem success_echoes_input_books :
  forall (svc : Service) (reqBody : json),
    stringEntries reqBody ->
    status (fst (recommendBooks svc reqBody)) = 200 ->
    exists books recs content,
      property reqBody (lit "books") = Some (Some (JArray books)) /\
      (1 <= List.length books <= 10)%nat /\
      svc (RecommendFor books) = Completion content /\
      recommendBooks svc reqBody =
        (mkResponse 200 (RecommendationResponse books recs),
         [RecommendFor books]) /\
      (List.length recs <= 5)%nat.
Proof.
  intros svc reqBody _.
  destruct (property reqBody (lit "books")) as [books|] eqn:Hp.
  2:{ rewrite (recommendBooks_unreadable svc reqBody Hp). discriminate. }
  rewrite (recommendBooks_cases svc reqBody books Hp).
  destruct books as [[ | | | |[|b bs]| ]|]; try discriminate.
  destruct (Nat.ltb_spec 10 (List.length (b :: bs))) as [Hlong | Hshort];
    [discriminate|].
  destruct (forallb stringifiable (b :: bs)); [|discriminate].
  destruct (svc (RecommendFor (b :: bs))) as [content|] eqn:Hsvc;
    [|discriminate].
  intros _.
  exists (b :: bs), (firstn 5 (parseRecommendations (orEmpty content))), content.
  split; [reflexivity|].
  split; [split; [simpl; lia | exact Hshort]|].
  split; [exact Hsvc|].
  split; [reflexivity | apply firstn_le_length].
Qed.

Lemma success_echoes_input_books_witness :
  exists books recs content,
    property oneBook (lit "books") = Some (Some (JArray books)) /\
    (1 <= List.length books <= 10)%nat /\
    (fun _ : ChatRequest => Completion (Some sevenEntries)) (RecommendFor books)
      = Completion content /\
    recommendBooks (fun _ => Completion (Some sevenEntries)) oneBook =
      (mkResponse 200 (RecommendationResponse books recs),
       [RecommendFor books]) /\
    (List.length recs <= 5)%nat.
Proof.
  apply (success_echoes_input_books
           (fun _ => Completion (Some sevenEntries)) oneBook).
  - intros l H. injection H as <-. reflexivity.
  - vm_compute. reflexivity.
Defined.

(** X15: for a request whose books are strings, the recommendation route
    calls the completion service at most once, and it calls it exactly when
    [books] is a list of 1 to 10 entries; it answers 200, 400 or 500, and 500
    exactly when [books] cannot be read from the body or the call was made
    and failed. *)
Theorem recommendBooks_outcomes :
  forall (svc : Service) (reqBody : json),
    stringEntries reqBody ->
    (List.length (snd (recommendBooks svc reqBody)) <= 1)%nat /\
    (snd (recommendBooks svc reqBody) <> [] <->
     exists books,
       property reqBody (lit "books") = Some (Some (JArray books)) /\
       (1 <= List.length books <= 10)%nat) /\
    (status (fst (recommendBooks svc reqBody)) = 500 <->
     property reqBody (lit "books") = None \/
     exists books,
       property reqBody (lit "books") = Some (Some (JArray books)) /\
       (1 <= List.length books <= 10)%nat /\
       svc (RecommendFor books) = Rejected) /\
    (status (fst (recommendBooks svc reqBody)) = 200 \/
     status (fst (recommendBooks svc reqBody)) = 400 \/
     status (fst (recommendBooks svc reqBody)) = 500).
Proof.
  intros svc reqBody Hstr.
  destruct (property reqBody (lit "books")) as [books|] eqn:Hp.
  2:{ rewrite (recommendBooks_unreadable svc reqBody Hp).
      cbn [fst snd status failed List.length].
      split; [lia|].
      split; [split; [intros H; contradiction
                     | intros [books [H _]]; discriminate]|].
      split; [split; [intros _; left; reflexivity | reflexivity]|].
      right; right; reflexivity. }
  rewrite (recommendBooks_cases svc reqBody books Hp).
  assert (Hno : forall (v : option json) (resp : HttpResponse),
            status resp = 400 ->
            (forall l, v = Some (JArray l) -> ~ (1 <= List.length l <= 10)%nat) ->
            (List.length (snd (resp, @nil ChatRequest)) <= 1)%nat /\
            (snd (resp, @nil ChatRequest) <> [] <->
             exists l, Some v = Some (Some (JArray l)) /\
                       (1 <= List.length l <= 10)%nat) /\
            (status (fst (resp, @nil ChatRequest)) = 500 <->
             Some v = None \/
             exists l, Some v = Some (Some (JArray l)) /\
                       (1 <= List.length l <= 10)%nat /\
                       svc (RecommendFor l) = Rejected) /\
            (status (fst (resp, @nil ChatRequest)) = 200 \/
             status (fst (resp, @nil ChatRequest)) = 400 \/
             status (fst (resp, @nil ChatRequest)) = 500)).
  { intros v resp Hst Hv. cbn [fst snd List.length]. rewrite Hst.
    split; [lia|].
    split.
    { split; [intros H; contradiction|].
      intros [l [E Hl]]. injection E as ->. exfalso. exact (Hv l eq_refl Hl). }
    split.
    { split; [discriminate|].
      intros [E | [l [E [Hl _]]]]; [discriminate|].
      injection E as ->. exfalso. exact (Hv l eq_refl Hl). }
    right; left; reflexivity. }
  destruct books as [[ | | | |[|b bs]| ]|];
    try (apply Hno; [reflexivity | intros l E; discriminate]).
  - apply Hno; [reflexivity|]. intros l E. injection E as <-. simpl. lia.
  - destruct (Nat.ltb_spec 10 (List.length (b :: bs))) as [Hlong | Hshort].
    + apply Hno; [reflexivity|]. intros l E. injection E as <-. lia.
    + assert (Hrange : (1 <= List.length (b :: bs) <= 10)%nat)
        by (split; [simpl; lia | exact Hshort]).
      assert (Hcalled : exists l,
                 Some (Some (JArray (b :: bs))) = Some (Some (JArray l)) /\
                 (1 <= List.length l <= 10)%nat)
        by (exists (b :: bs); split; [reflexivity | exact Hrange]).
      rewrite (strings_stringifiable (b :: bs) (Hstr (b :: bs) Hp)).
      destruct (svc (RecommendFor (b :: bs))) as [content|] eqn:Hsvc;
        cbn [fst snd status failed List.length].
      * split; [lia|].
        split; [split; [intros _; exact Hcalled | discriminate]|].
        split; [|left; reflexivity].
        split; [discriminate|].
        intros [E | [l [E [_ Hr]]]]; [discriminate|].
        injection E as <-. rewrite Hsvc in Hr. discriminate.
      * split; [lia|].
        split; [split; [intros _; exact Hcalled | discriminate]|].
        split; [|right; right; reflexivity].
        split; [|reflexivity].
        intros _. right. exists (b :: bs).
        split; [reflexivity | split; [exact Hrange | exact Hsvc]].
Qed.

Lemma recommendBooks_outcomes_witness :
  (List.length (snd (recommendBooks (fun _ => Rejected) oneBook)) <= 1)%nat /\
  (snd (recommendBooks (fun _ => Rejected) oneBook) <> [] <->
   exists books,
     property oneBook (lit "books") = Some (Some (JArray books)) /\
     (1 <= List.length books <= 10)%nat) /\
  (status (fst (recommendBooks (fun _ => Rejected) oneBook)) = 500 <->
   property oneBook (lit "books") = None \/
   exists books,
     property oneBook (lit "books") = Some (Some (JArray books)) /\
     (1 <= List.length books <= 10)%nat /\
     (fun _ : ChatRequest => Rejected) (RecommendFor books) = Rejected) /\
  (status (fst (recommendBooks (fun _ => Rejected) oneBook)) = 200 \/
   status (fst (recommendBooks (fun _ => Rejected) oneBook)) = 400 \/
   status (fst (recommendBooks (fun _ => Rejected) oneBook)) = 500).
Proof.
  apply (recommendBooks_outcomes (fun _ => Rejected) oneBook).
  intros l H. injection H as <-. reflexivity.
Defined.

(* ================================================================== *)
(** * Further properties: the structured decode *)
(* ================================================================== *)

(** X16: when the completion text decodes to a sequence, the elements of
    the sequence are the recommendations, as they were decoded, and the
    route (on a valid request whose books are strings) returns the first 5
    of them. *)
Theorem raw_array_is_used :
  forall (svc : Service) (reqBody : json) (books : list json)
         (text : jsstring) (items : list json),
    property reqBody (lit "books") = Some (Some (JArray books)) ->
    forallb isJString books = true ->
    (1 <= List.length books <= 10)%nat ->
    svc (RecommendFor books) = Completion (Some text) ->
    JSON_parse text = Some (JArray items) ->
    parseRecommendations text = map Decoded items /\
    recommendBooks svc reqBody =
      (mkResponse 200
         (RecommendationResponse books (map Decoded (firstn 5 items))),
       [RecommendFor books]).
Proof.
  intros svc reqBody books text items Hbooks Hstr Hcount Hsvc Hparse.
  assert (Hrecs : parseRecommendations text = map Decoded items).
  { unfold parseRecommendations, decodeRecommendations.
    rewrite Hparse. reflexivity. }
  split; [exact Hrecs|].
  rewrite (recommendBooks_valid svc reqBody books (Some text) Hbooks Hcount
             (strings_stringifiable books Hstr) Hsvc).
  rewrite orEmpty_some, Hrecs, firstn_map. reflexivity.
Qed.

Lemma raw_array_is_used_witness :
  parseRecommendations (quoted "[{'title':'Dune'}, 7]") =
    map Decoded [JObject [(lit "title", JString (lit "Dune"))]; JNumber (lit "7")] /\
  recommendBooks (fun _ => Completion (Some (quoted "[{'title':'Dune'}, 7]")))
                 oneBook =
    (mkResponse 200
       (RecommendationResponse [JString (lit "Dune")]
          (map Decoded
             (firstn 5 [JObject [(lit "title", JString (lit "Dune"))];
                        JNumber (lit "7")]))),
     [RecommendFor [JString (lit "Dune")]]).
Proof.
  apply (raw_array_is_used
           (fun _ => Completion (Some (quoted "[{'title':'Dune'}, 7]")))
           oneBook [JString (lit "Dune")] (quoted "[{'title':'Dune'}, 7]")).
  - reflexivity.
  - reflexivity.
  - simpl. lia.
  - reflexivity.
  - vm_compute. reflexivity.
Defined.

Lemma startsJsonValue_false (c : N) :
  startsJsonValue c = false ->
  (c =? 123) = false /\ (c =? 91) = false /\ (c =? 34) = false /\
  (c =? 116) = false /\ (c =? 102) = false /\ (c =? 110) = false /\
  (c =? 45) = false /\ isDigit c = false.
Proof.
  unfold startsJsonValue. intros H.
  repeat (apply orb_false_iff in H; destruct H as [H ?]).
  repeat split; assumption.
Qed.

Lemma parseNumber_no_start (c : N) (r : jsstring) :
  (c =? 45) = false -> isDigit c = false -> parseNumber (c :: r) = None.
Proof.
  intros Hm Hd. unfold parseNumber, expect. rewrite Hm.
  destruct (N.eqb_spec c 48) as [-> | _]; [discriminate Hd|].
  rewrite Hd. reflexivity.
Qed.

(** A text that is blank, or whose first code unit after the leading white
    space cannot begin a JSON value, does not decode. *)
Lemma JSON_parse_no_start (text : jsstring) :
  skipSpace text = [] \/
  (exists c r, skipSpace text = c :: r /\ startsJsonValue c = false) ->
  JSON_parse text = None.
Proof.
  intros H. unfold JSON_parse, parseText, fuelFor.
  replace (2 * List.length text + 2)%nat
    with (S (2 * List.length text + 1))%nat by lia.
  cbn [parseValue].
  destruct H as [-> | [c [r [-> Hc]]]]; [reflexivity|].
  destruct (startsJsonValue_false c Hc)
    as [H1 [H2 [H3 [H4 [H5 [H6 [H7 H8]]]]]]].
  rewrite H1, H2, H3.
  assert (Ht : startsWith (c :: r) (lit "true") = false).
  { change (lit "true") with [116; 114; 117; 101]. cbn [startsWith].
    rewrite (N.eqb_sym 116 c), H4. reflexivity. }
  assert (Hf : startsWith (c :: r) (lit "false") = false).
  { change (lit "false") with [102; 97; 108; 115; 101]. cbn [startsWith].
    rewrite (N.eqb_sym 102 c), H5. reflexivity. }
  assert (Hn : startsWith (c :: r) (lit "null") = false).
  { change (lit "null") with [110; 117; 108; 108]. cbn [startsWith].
    rewrite (N.eqb_sym 110 c), H6. reflexivity. }
  rewrite Ht, Hf, Hn, (parseNumber_no_start c r H7 H8). reflexivity.
Qed.

(** X17: a completion text that is blank, or that begins (after JSON white
    space) with a code unit that cannot begin a JSON value, e.g. prose or a
    fenced block, is not decoded: the line parser is applied to it, and the
    route (on a valid request whose books are strings) returns the first 5
    records of the line parser. *)
Theorem text_without_json_start_is_line_parsed :
  forall (svc : Service) (reqBody : json) (books : list json)
         (text : jsstring),
    property reqBody (lit "books") = Some (Some (JArray books)) ->
    forallb isJString books = true ->
    (1 <= List.length books <= 10)%nat ->
    svc (RecommendFor books) = Completion (Some text) ->
    (skipSpace text = [] \/
     exists c r, skipSpace text = c :: r /\ startsJsonValue c = false) ->
    JSON_parse text = None /\
    recommendBooks svc reqBody =
      (mkResponse 200
         (RecommendationResponse books
            (firstn 5 (map Extracted (parseTextRecommendations text)))),
       [RecommendFor books]).
Proof.
  intros svc reqBody books text Hbooks Hstr Hcount Hsvc Hstart.
  pose proof (JSON_parse_no_start text Hstart) as Hnone.
  split; [exact Hnone|].
  rewrite (recommendBooks_valid svc reqBody books (Some text) Hbooks Hcount
             (strings_stringifiable books Hstr) Hsvc).
  rewrite orEmpty_some.
  unfold parseRecommendations, decodeRecommendations.
  rewrite Hnone. reflexivity.
Qed.

Lemma text_without_json_start_is_line_parsed_witness :
  JSON_parse (LF :: lit "Title: Dune") = None /\
  recommendBooks (fun _ => Completion (Some (LF :: lit "Title: Dune"))) oneBook =
    (mkResponse 200
       (RecommendationResponse [JString (lit "Dune")]
          (firstn 5 (map Extracted
                       (parseTextRecommendations (LF :: lit "Title: Dune"))))),
     [RecommendFor [JString (lit "Dune")]]).
Proof.
  apply (text_without_json_start_is_line_parsed
           (fun _ => Completion (Some (LF :: lit "Title: Dune"))) oneBook
           [JString (lit "Dune")] (LF :: lit "Title: Dune")).
  - reflexivity.
  - reflexivity.
  - simpl. lia.
  - reflexivity.
  - right. exists 84, (lit "itle: Dune"). split; reflexivity.
Defined.

(** ** The result of [JSON.parse] does not depend on the fuel *)

Lemma parseElements_step (fuel : nat) (s : jsstring) :
  parseElements (S fuel) s =
  match parseValue fuel s with
  | Ok v r =>
      match expect 44 (skipSpace r) with
      | Some r' =>
          match parseElements fuel r' with
          | Ok vs rest => Ok (v :: vs) rest
          | SyntaxError => SyntaxError
          | OutOfFuel => OutOfFuel
          end
      | None =>
          match expect 93 (skipSpace r) with
          | Some rest => Ok [v] rest
          | None => SyntaxError
          end
      end
  | SyntaxError => SyntaxError
  | OutOfFuel => OutOfFuel
  end.
Proof. reflexivity. Qed.

Lemma parseMembers_step (fuel : nat) (s : jsstring) :
  parseMembers (S fuel) s =
  match expect 34 (skipSpace s) with
  | None => SyntaxError
  | Some r =>
      match parseChars r with
      | None => SyntaxError
      | Some (k, r1) =>
          match expect 58 (skipSpace r1) with
          | None => SyntaxError
          | Some r2 =>
              match parseValue fuel r2 with
              | Ok v r3 =>
                  match expect 44 (skipSpace r3) with
                  | Some r4 =>
                      match parseMembers fuel r4 with
                      | Ok ms rest => Ok ((k, v) :: ms) rest
                      | SyntaxError => SyntaxError
                      | OutOfFuel => OutOfFuel
                      end
                  | None =>
                      match expect 125 (skipSpace r3) with
                      | Some rest => Ok [(k, v)] rest
                      | None => SyntaxError
                      end
                  end
              | SyntaxError => SyntaxError
              | OutOfFuel => OutOfFuel
              end
          end
      end
  end.
Proof. reflexivity. Qed.

Lemma parse_more_fuel (fuel : nat) :
  (forall s, parseValue fuel s <> OutOfFuel ->
             parseValue (S fuel) s = parseValue fuel s) /\
  (forall s, parseElements fuel s <> OutOfFuel ->
             parseElements (S fuel) s = parseElements fuel s) /\
  (forall s, parseMembers fuel s <> OutOfFuel ->
             parseMembers (S fuel) s = parseMembers fuel s).
Proof.
  induction fuel as [|f [IHv [IHe IHm]]].
  { repeat split; intros s H; exfalso; apply H; reflexivity. }
  split; [|split].
  - intros s H.
    cbn [parseValue] in H. cbn [parseValue].
    destruct (skipSpace s) as [|c t]; [reflexivity|].
    destruct (c =? 123).
    { destruct (expect 125 (skipSpace t)); [reflexivity|].
      rewrite IHm; [reflexivity|].
      intros E. rewrite E in H. apply H. reflexivity. }
    destruct (c =? 91).
    { destruct (expect 93 (skipSpace t)); [reflexivity|].
      rewrite IHe; [reflexivity|].
      intros E. rewrite E in H. apply H. reflexivity. }
    reflexivity.
  - intros s H.
    rewrite parseElements_step in H.
    rewrite (parseElements_step (S f) s), (parseElements_step f s).
    rewrite IHv by (intros E; rewrite E in H; apply H; reflexivity).
    destruct (parseValue f s) as [v r| |]; try reflexivity.
    destruct (expect 44 (skipSpace r)) as [r'|]; [|reflexivity].
    rewrite IHe; [reflexivity|].
    intros E. rewrite E in H. apply H. reflexivity.
  - intros s H.
    rewrite parseMembers_step in H.
    rewrite (parseMembers_step (S f) s), (parseMembers_step f s).
    destruct (expect 34 (skipSpace s)) as [r0|]; [|reflexivity].
    destruct (parseChars r0) as [[k r1]|]; [|reflexivity].
    destruct (expect 58 (skipSpace r1)) as [r2|]; [|reflexivity].
    rewrite IHv by (intros E; rewrite E in H; apply H; reflexivity).
    destruct (parseValue f r2) as [v r3| |]; try reflexivity.
    destruct (expect 44 (skipSpace r3)) as [r4|]; [|reflexivity].
    rewrite IHm; [reflexivity|].
    intros E. rewrite E in H. apply H. reflexivity.
Qed.

Lemma parseValue_fuel_le (fuel fuel' : nat) (s : jsstring) :
  (fuel <= fuel')%nat ->
  parseValue fuel s <> OutOfFuel ->
  parseValue fuel' s = parseValue fuel s.
Proof.
  intros Hle Hok. induction Hle as [|m Hle IH]; [reflexivity|].
  rewrite <- IH.
  apply (proj1 (parse_more_fuel m)). rewrite IH. exact Hok.
Qed.

Lemma skipSpace_app_space (ws s : jsstring) :
  forallb isJsonSpace ws = true -> skipSpace (ws ++ s) = skipSpace s.
Proof.
  unfold skipSpace. induction ws as [|c ws IH]; simpl; [reflexivity|].
  destruct (isJsonSpace c); [exact IH|discriminate].
Qed.

(** X18: JSON white space (tab, line feed, carriage return, space) in
    front of the text does not change what the text decodes to, nor whether
    it decodes. *)
Theorem JSON_parse_leading_space :
  forall ws text : jsstring,
    forallb isJsonSpace ws = true ->
    JSON_parse (ws ++ text) = JSON_parse text.
Proof.
  intros ws text Hws. unfold JSON_parse.
  assert (H : parseText (ws ++ text) = parseText text).
  { unfold parseText.
    assert (Hskip : forall f, parseValue f (ws ++ text) = parseValue f text).
    { intros [|f]; [reflexivity|]. cbn [parseValue].
      rewrite (skipSpace_app_space ws text Hws). reflexivity. }
    rewrite Hskip.
    apply parseValue_fuel_le; [|apply parseText_fuel].
    unfold fuelFor. rewrite length_app. lia. }
  rewrite H. reflexivity.
Qed.

Lemma JSON_parse_leading_space_witness :
  JSON_parse ([LF; 32] ++ quoted "{'recommendations':[]}") =
  JSON_parse (quoted "{'recommendations':[]}").
Proof.
  apply (JSON_parse_leading_space [LF; 32] (quoted "{'recommendations':[]}")).
  reflexivity.
Defined.

(** ** Repeated keys *)






(** ** Markers are recognised at the start of the line only *)

Lemma lowerUnit_head_not_digit (c : N) (r : jsstring) :
  isDigit c = false ->
  takeWhile isDigit (lowerUnit c ++ r) = [].
Proof.
  unfold lowerUnit, isDigit.
  destruct (N.leb_spec 48 c), (N.leb_spec c 57); simpl; try discriminate;
    intros _;
    destruct (N.leb_spec 65 c), (N.leb_spec c 90); simpl;
    try (destruct (N.eqb_spec c 0x130); simpl;
         [reflexivity | destruct (N.eqb_spec c 0x212A); simpl; [reflexivity|]]);
    unfold isDigit;
    repeat match goal with
           | |- context [N.leb ?a ?b] => destruct (N.leb_spec a b); simpl
           end;
    try reflexivity; lia.
Qed.

(** X20: a numeric marker counts only at the very start of a line: a line
    whose first code unit is not a digit (an indented [ 1. Dune], say) begins
    a record exactly when it contains [title:], in any mix of case. *)
Theorem marker_only_at_line_start :
  forall (c : N) (r : jsstring),
    isDigit c = false ->
    beginsRecord (c :: r) = includes (toLowerCase (c :: r)) (lit "title:").
Proof.
  intros c r Hc. unfold beginsRecord, startsRecord, matchNumberMarker.
  change (toLowerCase (c :: r)) with (lowerUnit c ++ toLowerCase r).
  rewrite (lowerUnit_head_not_digit c (toLowerCase r) Hc).
  apply orb_false_r.
Qed.

Lemma marker_only_at_line_start_witness :
  beginsRecord (32 :: lit "1. Dune") =
  includes (toLowerCase (32 :: lit "1. Dune")) (lit "title:").
Proof.
  apply (marker_only_at_line_start 32 (lit "1. Dune")). reflexivity.
Defined.

(* ================================================================== *)
(** * Further properties: white space at the end of a line *)
(* ================================================================== *)

Section FinalWhiteSpace.

Variable c : N.
Hypothesis c_space : isWhiteSpace c = true.

Lemma space_range : (c <= 32 \/ 160 <= c) /\ c <> 0x130 /\ c <> 0x212A.
Proof.
  pose proof c_space as H. unfold isWhiteSpace in H.
  repeat match type of H with
         | (_ || _) = true => apply orb_true_iff in H; destruct H as [H | H]
         end;
    try (apply N.eqb_eq in H; subst c; repeat split; try lia; discriminate).
  apply andb_true_iff in H. destruct H as [H1 H2].
  apply N.leb_le in H1, H2. repeat split; lia.
Qed.

Lemma space_not_digit : isDigit c = false.
Proof.
  destruct space_range as [Hr _]. unfold isDigit.
  destruct (N.leb_spec 48 c), (N.leb_spec c 57); simpl; try reflexivity; lia.
Qed.

Lemma space_not_period : (c =? 46) = false.
Proof. destruct space_range as [Hr _]. apply N.eqb_neq. lia. Qed.

Lemma space_lowerUnit : lowerUnit c = [c].
Proof.
  destruct space_range as [Hr [H1 H2]]. unfold lowerUnit.
  destruct (N.leb_spec 65 c), (N.leb_spec c 90); simpl; try lia;
    destruct (N.eqb_spec c 0x130); try contradiction;
    destruct (N.eqb_spec c 0x212A); try contradiction; reflexivity.
Qed.

Lemma space_not_label_unit (a : N) :
  isLabelUnit a = true -> (canonicalize a =? canonicalize c) = false /\ a <> c.
Proof.
  destruct space_range as [Hr _].
  unfold isLabelUnit, canonicalize. intros Ha.
  destruct (N.leb_spec 97 a), (N.leb_spec a 122), (N.eqb_spec a 58);
    simpl in Ha; try discriminate;
    destruct (N.leb_spec 97 c), (N.leb_spec c 122); simpl;
    (split; [apply N.eqb_neq|]); lia.
Qed.

Lemma toLowerCase_final (l : jsstring) :
  toLowerCase (l ++ [c]) = toLowerCase l ++ [c].
Proof.
  rewrite toLowerCase_app. unfold toLowerCase at 2. simpl.
  rewrite space_lowerUnit. reflexivity.
Qed.

(** *** [trim] *)

Lemma dropWhile_final (l : jsstring) :
  (dropWhile isWhiteSpace (l ++ [c]) = [] /\ dropWhile isWhiteSpace l = []) \/
  dropWhile isWhiteSpace (l ++ [c]) = dropWhile isWhiteSpace l ++ [c].
Proof.
  induction l as [|x l IH]; simpl.
  - rewrite c_space. left. split; reflexivity.
  - destruct (isWhiteSpace x); [exact IH|]. right. reflexivity.
Qed.

Lemma trimEnd_final (y : jsstring) : trimEnd (y ++ [c]) = trimEnd y.
Proof.
  unfold trimEnd. rewrite rev_app_distr. simpl. rewrite c_space. reflexivity.
Qed.

Lemma trim_final (l : jsstring) : trim (l ++ [c]) = trim l.
Proof.
  unfold trim, trimStart.
  destruct (dropWhile_final l) as [[-> ->] | ->]; [reflexivity|].
  apply trimEnd_final.
Qed.

Lemma trim_upToFinal (y' y : jsstring) : upToFinal c y' y -> trim y' = trim y.
Proof. intros [-> | ->]; [reflexivity | apply trim_final]. Qed.

Lemma nonBlank_final (l : jsstring) : nonBlank (l ++ [c]) = nonBlank l.
Proof. unfold nonBlank. rewrite trim_final. reflexivity. Qed.

(** *** [includes] *)

Lemma includes_final (x tok : jsstring) :
  tok <> [] -> forallb isLabelUnit tok = true ->
  includes (x ++ [c]) tok = includes x tok.
Proof.
  intros Hne Htok. apply eq_true_iff_eq. rewrite !includes_occurs. split.
  - intros [a [b E]].
    destruct (exists_last Hne) as [tok' [z Ez]].
    destruct b as [|b0 b] using rev_ind.
    + rewrite app_nil_r, Ez, app_assoc in E.
      apply app_inj_tail in E. destruct E as [_ Ec].
      assert (Hz : isLabelUnit z = true).
      { rewrite forallb_forall in Htok. apply Htok.
        rewrite Ez. apply in_or_app. right. left. reflexivity. }
      destruct (space_not_label_unit z Hz) as [_ Hzc]. congruence.
    + clear IHb. rewrite !app_assoc in E.
      apply app_inj_tail in E. destruct E as [E _].
      exists a, b. rewrite E, app_assoc. reflexivity.
  - intros [a [b E]]. exists a, (b ++ [c]).
    rewrite E, <- !app_assoc. reflexivity.
Qed.

(** *** The numeric marker *)

Lemma takeWhile_digit_final (x : jsstring) :
  takeWhile isDigit (x ++ [c]) = takeWhile isDigit x /\
  dropWhile isDigit (x ++ [c]) = dropWhile isDigit x ++ [c].
Proof.
  induction x as [|z x [IH1 IH2]]; simpl.
  - rewrite space_not_digit. split; reflexivity.
  - destruct (isDigit z); [|split; reflexivity].
    rewrite IH1, IH2. split; reflexivity.
Qed.

Lemma matchNumberMarker_final (x : jsstring) :
  matchNumberMarker (x ++ [c]) =
  match matchNumberMarker x with
  | Some r => Some (r ++ [c])
  | None => None
  end.
Proof.
  unfold matchNumberMarker.
  destruct (takeWhile_digit_final x) as [-> ->].
  destruct (takeWhile isDigit x); [reflexivity|].
  destruct (dropWhile isDigit x) as [|z y]; simpl.
  - rewrite space_not_period. reflexivity.
  - destruct (z =? 46); reflexivity.
Qed.

(** *** The labels *)

Lemma matchIgnoreCase_final (p : jsstring) :
  forallb isLabelUnit p = true ->
  forall x,
    matchIgnoreCase p (x ++ [c]) =
    match matchIgnoreCase p x with
    | Some r => Some (r ++ [c])
    | None => None
    end.
Proof.
  induction p as [|a p IH]; intros Hp x.
  - destruct x; reflexivity.
  - simpl in Hp. apply andb_true_iff in Hp. destruct Hp as [Ha Hp].
    destruct x as [|z x]; simpl.
    + destruct (space_not_label_unit a Ha) as [-> _]. reflexivity.
    + destruct (canonicalize a =? canonicalize z); [apply IH, Hp|reflexivity].
Qed.

Lemma matchLabel_final (label x : jsstring) :
  forallb isLabelUnit label = true ->
  matchUpToFinal c (matchLabel label (x ++ [c])) (matchLabel label x).
Proof.
  intros Hl. unfold matchLabel. rewrite (matchIgnoreCase_final label Hl x).
  destruct (matchIgnoreCase label x) as [r|]; simpl; [|exact I].
  destruct (dropWhile_final r) as [[-> ->] | ->];
    [left | right]; reflexivity.
Qed.

Lemma matchLabels_final (labels : list jsstring) (x : jsstring) :
  properLabels labels ->
  matchUpToFinal c (matchLabels labels (x ++ [c])) (matchLabels labels x).
Proof.
  intros Hl. induction Hl as [|l ls [_ Hl] _ IH]; simpl; [exact I|].
  pose proof (matchLabel_final l x Hl) as Hm.
  destruct (matchLabel l (x ++ [c])), (matchLabel l x);
    simpl in Hm; try contradiction; [exact Hm | exact IH].
Qed.

Lemma matchLabels_nil (labels : list jsstring) :
  properLabels labels -> matchLabels labels [] = None.
Proof.
  intros Hl. induction Hl as [|l ls [Hne _] _ IH]; [reflexivity|].
  simpl. unfold matchLabel. destruct l; [contradiction|]. exact IH.
Qed.

Lemma upToFinal_cons (z : N) (y' y : jsstring) :
  upToFinal c y' y -> upToFinal c (z :: y') (z :: y).
Proof. intros [-> | ->]; [left | right]; reflexivity. Qed.

Lemma replaceLabels_final (labels : list jsstring) (x : jsstring) :
  properLabels labels ->
  upToFinal c (replaceLabels labels (x ++ [c])) (replaceLabels labels x).
Proof.
  intros Hl. induction x as [|z x IH].
  - pose proof (matchLabels_final labels [] Hl) as Hm.
    rewrite (matchLabels_nil labels Hl) in Hm.
    cbn [app replaceLabels] in *.
    destruct (matchLabels labels [c]); [contradiction|].
    right. reflexivity.
  - pose proof (matchLabels_final labels (z :: x) Hl) as Hm.
    cbn [app replaceLabels] in *.
    destruct (matchLabels labels (z :: x ++ [c])),
             (matchLabels labels (z :: x)); simpl in Hm; try contradiction.
    + exact Hm.
    + apply upToFinal_cons, IH.
Qed.

Lemma replaceTitleLabel_final (x : jsstring) :
  forall prevWord,
    upToFinal c (replaceTitleLabel prevWord (x ++ [c]))
              (replaceTitleLabel prevWord x).
Proof.
  induction x as [|z x IH]; intros prevWord.
  - pose proof (matchLabel_final (lit "title:") [] eq_refl) as Hm.
    cbn [app replaceTitleLabel] in *.
    change (matchLabel (lit "title:") []) with (@None jsstring) in Hm.
    destruct (xorb prevWord (isWordChar c)).
    + destruct (matchLabel (lit "title:") [c]); [contradiction|].
      right. reflexivity.
    + right. reflexivity.
  - pose proof (matchLabel_final (lit "title:") (z :: x) eq_refl) as Hm.
    cbn [app replaceTitleLabel] in *.
    destruct (xorb prevWord (isWordChar z)).
    + destruct (matchLabel (lit "title:") (z :: x ++ [c])),
               (matchLabel (lit "title:") (z :: x));
        simpl in Hm; try contradiction.
      * exact Hm.
      * apply upToFinal_cons, IH.
    + apply upToFinal_cons, IH.
Qed.

Lemma replaceTitle_final (x : jsstring) :
  upToFinal c (replaceTitle (x ++ [c])) (replaceTitle x).
Proof.
  unfold replaceTitle. rewrite matchNumberMarker_final.
  destruct (matchNumberMarker x); [right; reflexivity|].
  apply replaceTitleLabel_final.
Qed.

(** *** One line *)

Lemma startsRecord_final (l : jsstring) :
  startsRecord (toLowerCase (l ++ [c])) = startsRecord (toLowerCase l).
Proof.
  unfold startsRecord. rewrite toLowerCase_final.
  rewrite (includes_final _ (lit "title:")) by (discriminate || reflexivity).
  rewrite matchNumberMarker_final.
  destruct (matchNumberMarker (toLowerCase l)); reflexivity.
Qed.

Lemma parseLine_final (st : ParserState) (l : jsstring) :
  parseLine st (l ++ [c]) = parseLine st l.
Proof.
  assert (Hlabels : forall labels,
            properLabels labels ->
            trim (replaceLabels labels (l ++ [c])) = trim (replaceLabels labels l)).
  { intros labels H. apply trim_upToFinal, replaceLabels_final, H. }
  assert (Hproper : forall tok,
            tok <> [] -> forallb isLabelUnit tok = true -> properLabels [tok]).
  { intros tok H1 H2. constructor; [split; assumption|constructor]. }
  destruct st as [recs cur]. unfold parseLine.
  rewrite startsRecord_final, toLowerCase_final.
  rewrite (trim_upToFinal _ _ (replaceTitle_final l)).
  rewrite (includes_final _ (lit "author:")) by (discriminate || reflexivity).
  rewrite (includes_final _ (lit "reason:")) by (discriminate || reflexivity).
  rewrite (includes_final _ (lit "why:")) by (discriminate || reflexivity).
  rewrite (includes_final _ (lit "genre:")) by (discriminate || reflexivity).
  rewrite (Hlabels [lit "author:"])
    by (apply Hproper; [discriminate | reflexivity]).
  rewrite (Hlabels [lit "genre:"])
    by (apply Hproper; [discriminate | reflexivity]).
  rewrite (Hlabels [lit "reason:"; lit "why:"])
    by (constructor; [split; [discriminate | reflexivity]
                     | apply Hproper; [discriminate | reflexivity]]).
  reflexivity.
Qed.

(** *** The lines of a text *)

Lemma split_final (s : jsstring) :
  c <> LF ->
  exists init last,
    split LF s = init ++ [last] /\
    split LF (s ++ [c]) = init ++ [last ++ [c]].
Proof.
  intros Hc. induction s as [|z s [init [last [E1 E2]]]].
  - exists [], []. simpl.
    destruct (N.eqb_spec c LF); [contradiction|]. split; reflexivity.
  - simpl. destruct (z =? LF).
    + exists ([] :: init), last. rewrite E1, E2. split; reflexivity.
    + rewrite E1, E2. destruct init as [|i init].
      * exists [], (z :: last). split; reflexivity.
      * exists ((z :: i) :: init), last. split; reflexivity.
Qed.

Lemma fold_textLines_final (s : jsstring) (st : ParserState) :
  c <> LF ->
  fold_left parseLine (textLines (s ++ [c])) st =
  fold_left parseLine (textLines s) st.
Proof.
  intros Hc. unfold textLines.
  destruct (split_final s Hc) as [init [last [-> ->]]].
  rewrite !filter_app, !fold_left_app. simpl.
  rewrite nonBlank_final.
  destruct (nonBlank last); [|reflexivity].
  simpl. apply parseLine_final.
Qed.

End FinalWhiteSpace.

Lemma final_space_unit (s t : jsstring) (c : N) :
  isWhiteSpace c = true ->
  parseTextRecommendations (s ++ c :: LF :: t) =
    parseTextRecommendations (s ++ LF :: t) /\
  parseTextRecommendations (s ++ [c]) = parseTextRecommendations s.
Proof.
  intros Hc. destruct (N.eq_dec c LF) as [-> | Hne].
  - destruct (parse_blank_part s [] t eq_refl) as [_ [H2 H3]].
    split; [exact H3 | exact H2].
  - unfold parseTextRecommendations. split.
    + change (s ++ c :: LF :: t) with (s ++ [c] ++ LF :: t).
      rewrite app_assoc, !textLines_app, !fold_left_app.
      rewrite (fold_textLines_final c Hc s _ Hne). reflexivity.
    + rewrite (fold_textLines_final c Hc s _ Hne). reflexivity.
Qed.

(** X21: white space at the end of a line does not count: a run of
    white-space code units put just before a line feed, or at the end of the
    text, leaves the result of [parseTextRecommendations] as it is.  In
    particular a text with CRLF line endings gives the records of the same
    text with LF line endings. *)
Theorem final_white_space_is_ignored :
  forall s w t : jsstring,
    forallb isWhiteSpace w = true ->
    parseTextRecommendations (s ++ w ++ LF :: t) =
      parseTextRecommendations (s ++ LF :: t) /\
    parseTextRecommendations (s ++ w) = parseTextRecommendations s.
Proof.
  intros s w t. induction w as [|c w IH] using rev_ind; intros Hw.
  - rewrite app_nil_r. split; reflexivity.
  - rewrite forallb_app in Hw. apply andb_true_iff in Hw.
    destruct Hw as [Hw Hc]. simpl in Hc. rewrite andb_true_r in Hc.
    destruct (IH Hw) as [IH1 IH2].
    destruct (final_space_unit (s ++ w) t c Hc) as [H1 H2].
    split.
    + replace (s ++ (w ++ [c]) ++ LF :: t) with ((s ++ w) ++ c :: LF :: t)
        by (rewrite <- !app_assoc; reflexivity).
      rewrite H1.
      replace ((s ++ w) ++ LF :: t) with (s ++ w ++ LF :: t)
        by (rewrite <- app_assoc; reflexivity).
      exact IH1.
    + rewrite app_assoc, H2. exact IH2.
Qed.

Lemma final_white_space_is_ignored_witness :
  parseTextRecommendations
    (lit "1. Dune" ++ [13] ++ LF :: lit "Author: Frank Herbert") =
    parseTextRecommendations
      (lit "1. Dune" ++ LF :: lit "Author: Frank Herbert") /\
  parseTextRecommendations (lit "1. Dune" ++ [13]) =
    parseTextRecommendations (lit "1. Dune").
Proof.
  apply (final_white_space_is_ignored
           (lit "1. Dune") [13] (lit "Author: Frank Herbert")).
  reflexivity.
Defined.

(* ================================================================== *)
(** * Further properties: the records of a text in two parts *)
(* ================================================================== *)

Lemma parseLine_prefix (pre recs : list PartialBook) (cur : PartialBook)
      (line : jsstring) :
  parseLine (pre ++ recs, cur) line =
  (pre ++ fst (parseLine (recs, cur) line), snd (parseLine (recs, cur) line)).
Proof.
  unfold parseLine.
  destruct (startsRecord (toLowerCase line)).
  - destruct (truthy (title cur)); simpl; rewrite ?app_assoc; reflexivity.
  - destruct (includes (toLowerCase line) (lit "author:")); [reflexivity|].
    destruct (includes (toLowerCase line) (lit "reason:")
              || includes (toLowerCase line) (lit "why:")); [reflexivity|].
    destruct (includes (toLowerCase line) (lit "genre:")); reflexivity.
Qed.

Lemma fold_parseLine_prefix (lines : list jsstring) :
  forall (pre recs : list PartialBook) (cur : PartialBook),
    fold_left parseLine lines (pre ++ recs, cur) =
    (pre ++ fst (fold_left parseLine lines (recs, cur)),
     snd (fold_left parseLine lines (recs, cur))).
Proof.
  induction lines as [|line lines IH]; intros pre recs cur; [reflexivity|].
  cbn [fold_left]. rewrite parseLine_prefix.
  destruct (parseLine (recs, cur) line) as [recs' cur']. apply IH.
Qed.

Lemma finish_prefix (pre : list PartialBook) (st : ParserState) :
  finish (pre ++ fst st, snd st) = pre ++ finish st.
Proof.
  destruct st as [recs cur]. simpl.
  destruct (truthy (title cur)); [rewrite app_assoc|]; reflexivity.
Qed.

(** The title of the record under construction after some lines: the one
    given by the last record-start line, if there is one. *)
Lemma fold_parseLine_title (lines : list jsstring) :
  forall recs cur,
    title (snd (fold_left parseLine lines (recs, cur))) =
    match rev (filter beginsRecord lines) with
    | l :: _ => Some (extractTitle l)
    | [] => title cur
    end.
Proof.
  induction lines as [|line lines IH]; intros recs cur; [reflexivity|].
  cbn [fold_left filter].
  destruct (beginsRecord line) eqn:Hb.
  - rewrite (parseLine_start recs cur line Hb). cbv zeta. rewrite IH.
    cbn [rev title].
    destruct (rev (filter beginsRecord lines)); reflexivity.
  - destruct (parseLine_other recs cur line Hb) as [_ Ht].
    destruct (parseLine (recs, cur) line) as [recs' cur'].
    rewrite IH. simpl in Ht. rewrite Ht. reflexivity.
Qed.

(** X22: the records of a text in two parts.  When the last record-start
    line of the first part has a non-empty title and the second part begins
    (after blank lines) with a record-start line, the records of the two
    parts joined by a line feed are the records of the first part followed
    by the records of the second. *)
Theorem records_of_two_parts :
  forall (s t : jsstring) (init : list jsstring) (l first : jsstring)
         (rest : list jsstring),
    filter beginsRecord (textLines s) = init ++ [l] ->
    nonEmpty (extractTitle l) = true ->
    textLines t = first :: rest ->
    beginsRecord first = true ->
    parseTextRecommendations (s ++ LF :: t) =
    parseTextRecommendations s ++ parseTextRecommendations t.
Proof.
  intros s t init l first rest Hs Hl Ht Hfirst.
  unfold parseTextRecommendations.
  rewrite textLines_app, fold_left_app, Ht. cbn [fold_left].
  pose proof (fold_parseLine_title (textLines s) [] emptyBook) as Htitle.
  rewrite Hs, rev_app_distr in Htitle. cbn [rev app] in Htitle.
  destruct (fold_left parseLine (textLines s) ([], emptyBook))
    as [recs cur] eqn:Es.
  cbn [snd] in Htitle.
  assert (Htruthy : truthy (title cur) = true).
  { rewrite Htitle. unfold truthy. destruct (extractTitle l);
      [discriminate Hl | reflexivity]. }
  rewrite (parseLine_start recs cur first Hfirst).
  rewrite (parseLine_start [] emptyBook first Hfirst).
  rewrite Htruthy. cbv zeta. cbn [truthy title emptyBook author reason genre].
  cbn [finish]. rewrite Htruthy.
  rewrite <- (app_nil_r (recs ++ [cur])) at 1.
  rewrite fold_parseLine_prefix.
  apply (finish_prefix (recs ++ [cur])).
Qed.

Lemma records_of_two_parts_witness :
  parseTextRecommendations
    ((lit "1. Dune" ++ LF :: lit "Author: Frank Herbert")
       ++ LF :: (lit "2. Foundation" ++ LF :: lit "Genre: Sci-fi")) =
  parseTextRecommendations (lit "1. Dune" ++ LF :: lit "Author: Frank Herbert")
  ++ parseTextRecommendations (lit "2. Foundation" ++ LF :: lit "Genre: Sci-fi").
Proof.
  apply (records_of_two_parts
           (lit "1. Dune" ++ LF :: lit "Author: Frank Herbert")
           (lit "2. Foundation" ++ LF :: lit "Genre: Sci-fi")
           [] (lit "1. Dune") (lit "2. Foundation") [lit "Genre: Sci-fi"]).
  - reflexivity.
  - reflexivity.
  - reflexivity.
  - reflexivity.
Defined.

(* ================================================================== *)
(** * Further properties: books that do not convert to strings *)
(* ================================================================== *)

(** X23: when [books] passes the validation (a list of 1 to 10 entries)
    but one entry has no conversion to a string, building the prompt throws:
    the route answers 500 with the generic message and the completion
    service is not called. *)
Theorem unprintable_book_fails_without_call :
  forall (svc : Service) (reqBody : json) (books : list json),
    property reqBody (lit "books") = Some (Some (JArray books)) ->
    (1 <= List.length books <= 10)%nat ->
    forallb stringifiable books = false ->
    recommendBooks svc reqBody = (failed, []).
Proof.
  intros svc reqBody books Hbooks Hcount Hstr.
  rewrite (recommendBooks_cases svc reqBody _ Hbooks).
  destruct books as [|b bs]; [simpl in Hcount; lia|].
  destruct (Nat.ltb_spec 10 (List.length (b :: bs))) as [Hlong | _]; [lia|].
  rewrite Hstr. reflexivity.
Qed.

Lemma unprintable_book_fails_without_call_witness :
  recommendBooks (fun _ => Completion (Some sevenEntries)) unprintableBook =
  (failed, []).
Proof.
  apply (unprintable_book_fails_without_call
           (fun _ => Completion (Some sevenEntries)) unprintableBook
           [JObject [(lit "toString", JNumber (lit "1"))]]).
  - reflexivity.
  - simpl. lia.
  - reflexivity.
Defined.
